(** * Futuristic Novel Reader API: a shallow embedding of [main.py] and [schemas.py]

    The handlers of [main.py] are embedded as functions in a state-and-exception
    monad over a model of the MongoDB database they talk to.  Python dictionaries
    (the documents) are finite maps from field names to values; a collection is
    the list of its documents in natural (insertion) order.

    Three things the handlers rely on are not code of [main.py] / [schemas.py]
    and are modelled here:
    - pymongo / MongoDB ([find_one], [find], [sort], [limit], [count_documents],
      [update_one], [insert_one]) and [bson.ObjectId];
    - pydantic's validation of the three schema classes, and FastAPI's mapping
      of exceptions to HTTP status codes;
    - [database.create_document], which is modelled from the specification.

    The database handle [db] is taken to be initialised (not [None]). *)

From Stdlib Require Import ZArith NArith String Ascii List Lia.
From Stdlib Require Import Floats.PrimFloat Floats.SpecFloat Floats.FloatOps Floats.FloatAxioms.
From Stdlib Require Import Sorting.Sorted Sorting.Permutation.
From stdpp Require Import gmap strings list.

Set Warnings "-inexact-float".
Local Open Scope Z_scope.

(* ===================================================================== *)
(** * Python values and documents *)
(* ===================================================================== *)

(** [bson.ObjectId]: the bytes of the identifier.  An identifier that the
    driver generates has twelve bytes and is kept as their big-endian number,
    below [2^96].  [ObjectId(text)] can also yield [k < 12] bytes (see
    [ObjectId_of_str]); such an identifier is kept as [(k + 1) * 2^96 + n],
    [n] being the big-endian number of its bytes, so that two identifiers are
    equal exactly when their bytes are. *)
Definition ObjectId := N.

(** The values found in the documents of this program: [None], [int],
    [float] (an IEEE double), [str], a list of text tags, and [ObjectId]. *)
Inductive value :=
  | VNone
  | VInt (z : Z)
  | VFloat (f : float)
  | VStr (s : string)
  | VList (l : list string)
  | VOid (o : ObjectId).

(** A document is a Python [dict] with text keys. *)
Abbreviation doc := (gmap string value).

(* ===================================================================== *)
(** * [bson.ObjectId]: text form *)
(* ===================================================================== *)

Definition hex_digit_value (c : ascii) : option N :=
  let n := N_of_ascii c in
  if ((48 <=? n) && (n <=? 57))%N then Some (n - 48)%N
  else if ((97 <=? n) && (n <=? 102))%N then Some (n - 87)%N
  else if ((65 <=? n) && (n <=? 70))%N then Some (n - 55)%N
  else None.

(** The ASCII whitespace: space, and the control characters from the
    horizontal tab to the carriage return. *)
Definition is_space (c : ascii) : bool :=
  let n := N_of_ascii c in
  ((n =? 32) || ((9 <=? n) && (n <=? 13)))%N.

(** [bytes.fromhex(s)]: whitespace is skipped before every byte and at the
    end; a byte is two adjacent hexadecimal digits of either case; anything
    else is a [ValueError] (here [None]). *)
Fixpoint fromhex (s : string) : option (list N) :=
  match s with
  | EmptyString => Some []
  | String c s' =>
      if is_space c then fromhex s'
      else
        match hex_digit_value c, s' with
        | Some top, String c' s'' =>
            match hex_digit_value c' with
            | Some bot =>
                match fromhex s'' with
                | Some bs => Some ((16 * top + bot)%N :: bs)
                | None => None
                end
            | None => None
            end
        | _, _ => None
        end
  end.

(** The big-endian number of a sequence of bytes. *)
Definition bytes_value (bs : list N) : N :=
  foldl (fun acc b => (256 * acc + b)%N) 0%N bs.

Definition ObjectId_of_bytes (bs : list N) : ObjectId :=
  if (length bs =? 12)%nat then bytes_value bs
  else ((N.of_nat (length bs) + 1) * 2 ^ 96 + bytes_value bs)%N.

(** [ObjectId(id_str)] for a [str] argument, as bson has it: a text of 24
    characters that [bytes.fromhex] reads, or [InvalidId] (here [None]).
    24 hexadecimal digits give twelve bytes; a text of 24 characters with
    whitespace between its pairs of digits is accepted too, and gives fewer. *)
Definition ObjectId_of_str (id_str : string) : option ObjectId :=
  if (String.length id_str =? 24)%nat then
    match fromhex id_str with
    | Some bs => Some (ObjectId_of_bytes bs)
    | None => None
    end
  else None.

Definition hex_char (d : N) : ascii :=
  if (d <? 10)%N then ascii_of_N (48 + d) else ascii_of_N (87 + d).

Fixpoint hex_digits (k : nat) (n : N) (acc : string) : string :=
  match k with
  | O => acc
  | S k' => hex_digits k' (n / 16)%N (String (hex_char (n mod 16)%N) acc)
  end.

(** The number of bytes of an identifier. *)
Definition ObjectId_length (o : ObjectId) : nat :=
  if (o <? 2 ^ 96)%N then 12 else N.to_nat (o / 2 ^ 96 - 1).

(** [str(oid)]: two lower-case hexadecimal digits for every byte, 24 of them
    for an identifier of twelve bytes. *)
Definition str_ObjectId (o : ObjectId) : string :=
  hex_digits (2 * ObjectId_length o) (o mod 2 ^ 96)%N EmptyString.
Arguments str_ObjectId : simpl never.

(* ===================================================================== *)
(** * Exceptions and the handler monad *)
(* ===================================================================== *)

(** The exceptions raised in [main.py]: FastAPI's [HTTPException],
    pydantic's [ValidationError] (raised by a schema constructor), which
    carries the offending field and the kind of error, and the
    [OverflowError] of the driver's BSON encoder. *)
Inductive exn :=
  | HTTPException (status_code : Z) (detail : string)
  | ValidationError (loc : string) (type : string)
  | OverflowError (message : string).

Inductive result (A : Type) :=
  | Ok (a : A)
  | Raise (e : exn).
Arguments Ok {A} a.
Arguments Raise {A} e.

(** The calls made on the database handle, in the order they are made. *)
Inductive db_call :=
  | FindOne (collection : string)
  | Find (collection : string)
  | CountDocuments (collection : string)
  | UpdateOne (collection : string)
  | InsertOne (collection : string).

(** The database: its collections by name (a collection that was never
    written is empty), and the trace of calls made so far. *)
Record db := {
  collections : gmap string (list doc);
  calls : list db_call
}.

Definition collection (st : db) (name : string) : list doc :=
  default [] (collections st !! name).

Definition M (A : Type) : Type := db -> result A * db.

Definition ret {A} (a : A) : M A := fun st => (Ok a, st).
Definition raise {A} (e : exn) : M A := fun st => (Raise e, st).
Definition bind {A B} (m : M A) (k : A -> M B) : M B :=
  fun st =>
    match m st with
    | (Ok a, st') => k a st'
    | (Raise e, st') => (Raise e, st')
    end.
Definition lift {A} (r : result A) : M A := fun st => (r, st).

Declare Scope handler_scope.
Delimit Scope handler_scope with handler.
Notation "x <- m ;; k" := (bind m (fun x => k))
  (at level 100, m at next level, right associativity) : handler_scope.
Notation "m ;;; k" := (bind m (fun _ => k))
  (at level 100, right associativity) : handler_scope.

Definition log_call (c : db_call) : M unit :=
  fun st => (Ok tt, {| collections := collections st; calls := calls st ++ [c] |}).

Definition write_collection (name : string) (c : list doc) : M unit :=
  fun st => (Ok tt, {| collections := <[name := c]> (collections st); calls := calls st |}).

Definition read_collection (name : string) : M (list doc) :=
  fun st => (Ok (collection st name), st).

(* ===================================================================== *)
(** * The MongoDB model: query matching *)
(* ===================================================================== *)

(** Numbers are compared exactly, an [int] against a [float] too: a finite
    number is [m * 2^e]. *)
Inductive num :=
  | NaN
  | NegInf
  | Fin (m e : Z)
  | PosInf.

Definition num_of_float (f : float) : num :=
  match Prim2SF f with
  | S754_zero _ => Fin 0 0
  | S754_infinity true => NegInf
  | S754_infinity false => PosInf
  | S754_nan => NaN
  | S754_finite s m e => Fin (if s then Z.neg m else Z.pos m) e
  end.

Definition fin_leb (m1 e1 m2 e2 : Z) : bool :=
  let e := Z.min e1 e2 in
  m1 * 2 ^ (e1 - e) <=? m2 * 2 ^ (e2 - e).

(** MongoDB's order on numbers: NaN first, then from minus to plus infinity. *)
Definition num_leb (a b : num) : bool :=
  match a, b with
  | NaN, _ => true
  | _, NaN => false
  | NegInf, _ => true
  | _, NegInf => false
  | _, PosInf => true
  | PosInf, _ => false
  | Fin m1 e1, Fin m2 e2 => fin_leb m1 e1 m2 e2
  end.

Definition num_eqb (a b : num) : bool := num_leb a b && num_leb b a.

(** An equality condition [{field: q}] of a query, on the value [fv] the
    document has at [field] ([None] when the field is missing): a text
    matches an equal text or an array holding it, [null] matches a missing
    field, numbers match by value. *)
Definition field_matches (fv : option value) (q : value) : bool :=
  match q, fv with
  | VNone, None => true
  | VNone, Some VNone => true
  | VStr s, Some (VStr s') => String.eqb s s'
  | VStr s, Some (VList l) => existsb (String.eqb s) l
  | VOid o, Some (VOid o') => N.eqb o o'
  | VInt z, Some (VInt z') => Z.eqb z z'
  | VInt z, Some (VFloat f) => num_eqb (Fin z 0) (num_of_float f)
  | VFloat f, Some (VInt z) => num_eqb (num_of_float f) (Fin z 0)
  | VFloat f, Some (VFloat f') => num_eqb (num_of_float f) (num_of_float f')
  | VList l, Some (VList l') => bool_decide (l = l')
  | _, _ => false
  end.

(** A query document, as the list of its [field: value] conditions. *)
Definition query := list (string * value).

Definition matches (q : query) (d : doc) : bool :=
  forallb (fun c => field_matches (d !! fst c) (snd c)) q.

(* ===================================================================== *)
(** * The MongoDB model: sorting *)
(* ===================================================================== *)

(** The key an ascending sort reads off a field: a missing field counts as
    [null], an array counts as its least element, and an empty array comes
    before [null]. *)
Inductive sort_key :=
  | KEmptyArray
  | KNull
  | KNum (x : num)
  | KStr (s : string)
  | KOid (o : ObjectId).

Definition string_min (s t : string) : string :=
  if String.leb s t then s else t.

Definition sort_key_of (fv : option value) : sort_key :=
  match fv with
  | None | Some VNone => KNull
  | Some (VInt z) => KNum (Fin z 0)
  | Some (VFloat f) => KNum (num_of_float f)
  | Some (VStr s) => KStr s
  | Some (VList []) => KEmptyArray
  | Some (VList (s :: l)) => KStr (foldr string_min s l)
  | Some (VOid o) => KOid o
  end.

(** BSON's order of the kinds of value. *)
Definition key_rank (k : sort_key) : nat :=
  match k with
  | KEmptyArray => 0
  | KNull => 1
  | KNum _ => 2
  | KStr _ => 3
  | KOid _ => 4
  end.

Definition key_leb (a b : sort_key) : bool :=
  match a, b with
  | KNum x, KNum y => num_leb x y
  | KStr s, KStr t => String.leb s t
  | KOid o, KOid p => N.leb o p
  | _, _ => (key_rank a <=? key_rank b)%nat
  end.

Definition doc_leb (field : string) (a b : doc) : bool :=
  key_leb (sort_key_of (a !! field)) (sort_key_of (b !! field)).

(** The order of an ascending sort on [field], as a relation. *)
Definition doc_le (field : string) (a b : doc) : Prop := doc_leb field a b = true.

Fixpoint insert_sorted (field : string) (d : doc) (l : list doc) : list doc :=
  match l with
  | [] => [d]
  | x :: r => if doc_leb field d x then d :: x :: r else x :: insert_sorted field d r
  end.

(** [cursor.sort(field, 1)]: ascending, ties in natural order. *)
Definition sort (field : string) (docs : list doc) : list doc :=
  foldr (insert_sorted field) [] docs.

(** [cursor.limit(n)]. *)
Definition limit (n : nat) (docs : list doc) : list doc := take n docs.

(* ===================================================================== *)
(** * The MongoDB model: collection operations *)
(* ===================================================================== *)

Local Open Scope handler_scope.

(** [db[name].find_one(q)]: the first matching document, or [None]. *)
Definition find_one (name : string) (q : query) : M (option doc) :=
  log_call (FindOne name) ;;;
  c <- read_collection name ;;
  ret (head (filter (fun d => matches q d = true) c)).

(** [db[name].find(q)], iterated: the matching documents in natural order. *)
Definition find (name : string) (q : query) : M (list doc) :=
  log_call (Find name) ;;;
  c <- read_collection name ;;
  ret (filter (fun d => matches q d = true) c).

(** [db[name].count_documents(q)]. *)
Definition count_documents (name : string) (q : query) : M Z :=
  log_call (CountDocuments name) ;;;
  c <- read_collection name ;;
  ret (Z.of_nat (length (filter (fun d => matches q d = true) c))).

Definition max_oid (c : list doc) : ObjectId :=
  foldr (fun d m => match d !! "_id" with Some (VOid o) => N.max o m | _ => m end) 0%N c.

(** A newly generated [ObjectId]: one that no document of the collection
    has (the driver's ids are unique; the model takes the next number). *)
Definition ObjectId_new (c : list doc) : ObjectId := N.succ (max_oid c).

(** What the driver's BSON encoder takes: an [int] of at most eight bytes.
    Texts, floats, [None], lists of text and identifiers are always taken. *)
Definition bson_value_ok (v : value) : bool :=
  match v with
  | VInt z => (- 2 ^ 63 <=? z) && (z <? 2 ^ 63)
  | _ => true
  end.

Definition bson_ok (d : doc) : bool :=
  forallb (fun kv => bson_value_ok (snd kv)) (map_to_list d).

(** [db[name].insert_one(d)] for a document without [_id]: the driver adds
    a new [_id], the document goes last, and the id is returned.  A document
    that cannot be encoded raises [OverflowError] and nothing is written. *)
Definition insert_one (name : string) (d : doc) : M ObjectId :=
  log_call (InsertOne name) ;;;
  if bson_ok d then
    c <- read_collection name ;;
    let o := ObjectId_new c in
    write_collection name (c ++ [<["_id" := VOid o]> d]) ;;;
    ret o
  else raise (OverflowError "MongoDB can only handle up to 8-byte ints").

(** [{"$set": fields}] applied to a document. *)
Definition apply_set (fields : list (string * value)) (d : doc) : doc :=
  foldl (fun m c => <[fst c := snd c]> m) d fields.

Fixpoint update_first (q : query) (fields : list (string * value)) (c : list doc)
  : option (list doc) :=
  match c with
  | [] => None
  | d :: r =>
      if matches q d then Some (apply_set fields d :: r)
      else match update_first q fields r with
           | Some r' => Some (d :: r')
           | None => None
           end
  end.

(** [db[name].update_one(q, {"$set": fields}, upsert=True)]: the first
    matching document is updated in place; when none matches, a document
    made of the query's fields and the [$set] fields is inserted.  (The one
    caller, [upsert_progress], passes texts and a float, which the encoder
    always takes.) *)
Definition update_one_upsert (name : string) (q : query) (fields : list (string * value))
  : M unit :=
  log_call (UpdateOne name) ;;;
  c <- read_collection name ;;
  match update_first q fields c with
  | Some c' => write_collection name c'
  | None =>
      write_collection name
        (c ++ [<["_id" := VOid (ObjectId_new c)]> (apply_set fields (apply_set q ∅))])
  end.

(* ===================================================================== *)
(** * [schemas.py]: the three entity schemas *)
(* ===================================================================== *)

(** pydantic's [BaseModel.model_dump()]: the instance as a dictionary. *)
Class BaseModel (T : Type) := model_dump : T -> doc.

(** The schema constructors take their keyword arguments with the types the
    callers' annotations give them; [None] stands for Python's [None] passed
    explicitly.  A constructor either returns the validated instance or
    raises pydantic's [ValidationError]. *)

Module Novel.
Record t := {
  title : string;
  author : string;
  description : string;
  cover_url : option string;
  genres : list string
}.

(** [genres: List[str]] takes a list; the default (an empty list) fills in
    only for an argument that is absent, and [None] is not a list. *)
Definition new (title author description : string) (cover_url : option string)
    (genres : option (list string)) : result t :=
  match genres with
  | Some g =>
      Ok {| title := title; author := author; description := description;
            cover_url := cover_url; genres := g |}
  | None => Raise (ValidationError "genres" "list_type")
  end.

#[global] Instance dump : BaseModel t := fun m =>
  {[ "title" := VStr (title m);
     "author" := VStr (author m);
     "description" := VStr (description m);
     "cover_url" := match cover_url m with Some u => VStr u | None => VNone end;
     "genres" := VList (genres m) ]}.
End Novel.

Module Chapter.
Record t := {
  novel_id : string;
  index : Z;
  title : string;
  content : string
}.

(** [index: int = Field(..., ge=1)]. *)
Definition new (novel_id : string) (index : Z) (title content : string) : result t :=
  if 1 <=? index then
    Ok {| novel_id := novel_id; index := index; title := title; content := content |}
  else Raise (ValidationError "index" "greater_than_equal").

#[global] Instance dump : BaseModel t := fun m =>
  {[ "novel_id" := VStr (novel_id m);
     "index" := VInt (index m);
     "title" := VStr (title m);
     "content" := VStr (content m) ]}.
End Chapter.

Module Progress.
Record t := {
  user_id : string;
  novel_id : string;
  chapter_id : string;
  position : float
}.

(** [position: float = Field(0.0, ge=0.0, le=1.0)]: the two comparisons are
    those of IEEE doubles, and pydantic tests the upper bound first (so NaN,
    which passes neither, is reported against [le]). *)
Definition new (user_id novel_id chapter_id : string) (position : float) : result t :=
  if negb (PrimFloat.leb position 1) then
    Raise (ValidationError "position" "less_than_equal")
  else if negb (PrimFloat.leb 0 position) then
    Raise (ValidationError "position" "greater_than_equal")
  else
    Ok {| user_id := user_id; novel_id := novel_id; chapter_id := chapter_id;
          position := position |}.

#[global] Instance dump : BaseModel t := fun m =>
  {[ "user_id" := VStr (user_id m);
     "novel_id" := VStr (novel_id m);
     "chapter_id" := VStr (chapter_id m);
     "position" := VFloat (position m) ]}.
End Progress.

(* ===================================================================== *)
(** * [main.py]: the request models *)
(* ===================================================================== *)

(** A value of a request model is a request body that FastAPI has parsed and
    accepted; a body that does not fit the model is answered 422 by the
    framework and the handler is never called. *)

Module NovelCreate.
Record t := {
  title : string;
  author : string;
  description : string;
  cover_url : option string;          (* Optional[str] = None *)
  genres : option (list string)       (* Optional[List[str]] = None *)
}.
End NovelCreate.

Module ChapterCreate.
Record t := {
  index : Z;
  title : string;
  content : string
}.
End ChapterCreate.

Module ProgressUpsert.
Record t := {
  user_id : string;
  novel_id : string;
  chapter_id : string;
  position : float
}.
End ProgressUpsert.

(** What a handler returns, before FastAPI encodes it as JSON: [None], a
    dictionary, a list of dictionaries, or the seed routine's
    [{status, novels}]. *)
Inductive response :=
  | RNull
  | RDoc (d : doc)
  | RDocs (l : list doc)
  | RSeed (status : string) (novels : list doc).

(** What the JSON encoder of a response takes: a float that is neither NaN
    nor infinite, and no [ObjectId]. *)
Definition json_value_ok (v : value) : bool :=
  match v with
  | VFloat f => PrimFloat.is_finite f
  | VOid _ => false
  | _ => true
  end.

Definition json_doc_ok (d : doc) : bool :=
  forallb (fun kv => json_value_ok (snd kv)) (map_to_list d).

Definition json_ok (r : response) : bool :=
  match r with
  | RNull => true
  | RDoc d => json_doc_ok d
  | RDocs l => forallb json_doc_ok l
  | RSeed _ novels => forallb json_doc_ok novels
  end.

(** FastAPI's answer: 200 for a returned value (500 when it cannot be
    encoded as JSON), the exception's own status for an [HTTPException], and
    500 for any other exception that leaves the handler (a [ValidationError]
    raised inside a handler is not a request validation error, which is the
    only one answered 422). *)
Definition http_status (r : result response) : Z :=
  match r with
  | Ok v => if json_ok v then 200 else 500
  | Raise (HTTPException c _) => c
  | Raise (ValidationError _ _) => 500
  | Raise (OverflowError _) => 500
  end.

(** Modelled from the spec: [database.create_document] ([database.py] is not
    part of the sources read here).  It persists the record in the named
    collection with one write and returns the newly generated identifier as
    text. *)
Definition create_document {T} `{BaseModel T} (collection_name : string) (data : T)
  : M string :=
  o <- insert_one collection_name (model_dump data) ;;
  ret (str_ObjectId o).

(* ===================================================================== *)
(** * [main.py]: helpers and handlers *)
(* ===================================================================== *)

(** The double-quote character and the line feed of the demo texts. *)
Definition dq : string := String (ascii_of_nat 34) EmptyString.
Definition nl : string := String (ascii_of_nat 10) EmptyString.

Section Handlers.

(** Python's [str()] on the values that are neither text nor [ObjectId]
    (numbers, [None], lists): their printed form is left open. *)
Variable str_other : value -> string.

Definition py_str (v : value) : string :=
  match v with
  | VStr s => s
  | VOid o => str_ObjectId o
  | _ => str_other v
  end.

(* -------------------- Helpers -------------------- *)

Definition oid (id_str : string) : result ObjectId :=
  match ObjectId_of_str id_str with
  | Some o => Ok o
  | None => Raise (HTTPException 400 "Invalid ID format")
  end.

(** [isinstance(v, ObjectId)] values become their text. *)
Definition stringify (v : value) : value :=
  match v with
  | VOid o => VStr (str_ObjectId o)
  | _ => v
  end.

(** Python's truth value of an optional dictionary: [None] and the empty
    dictionary are false. *)
Definition falsy (d : option doc) : bool :=
  match d with
  | None => true
  | Some m => bool_decide (m = ∅)
  end.

(** [serialize] on a dictionary. *)
Definition serialize_dict (d : doc) : doc :=
  if falsy (Some d) then d
  else
    let out := d in
    let out :=
      match out !! "_id" with
      | Some v => <["id" := VStr (py_str v)]> (delete "_id" out)
      | None => out
      end in
    stringify <$> out.

(** [serialize], whose argument may be [None]. *)
Definition serialize (d : option doc) : option doc :=
  match d with
  | None => None
  | Some m => Some (serialize_dict m)
  end.

Definition returned (d : option doc) : response :=
  match d with
  | None => RNull
  | Some m => RDoc m
  end.

(* -------------------- Novels -------------------- *)

Definition list_novels : M response :=
  docs <- find "novel" [] ;;
  ret (RDocs (serialize_dict <$> sort "title" docs)).

Definition create_novel (novel : NovelCreate.t) : M response :=
  data <- lift (Novel.new (NovelCreate.title novel) (NovelCreate.author novel)
                  (NovelCreate.description novel) (NovelCreate.cover_url novel)
                  (NovelCreate.genres novel)) ;;
  new_id <- create_document "novel" data ;;
  ret (RDoc {[ "id" := VStr new_id ]}).

Definition get_novel (novel_id : string) : M response :=
  o <- lift (oid novel_id) ;;
  d <- find_one "novel" [("_id", VOid o)] ;;
  if falsy d then raise (HTTPException 404 "Novel not found")
  else ret (returned (serialize d)).

(* -------------------- Chapters -------------------- *)

Definition list_chapters (novel_id : string) : M response :=
  docs <- find "chapter" [("novel_id", VStr novel_id)] ;;
  ret (RDocs (serialize_dict <$> sort "index" docs)).

Definition create_chapter (novel_id : string) (chapter : ChapterCreate.t) : M response :=
  data <- lift (Chapter.new novel_id (ChapterCreate.index chapter)
                  (ChapterCreate.title chapter) (ChapterCreate.content chapter)) ;;
  new_id <- create_document "chapter" data ;;
  ret (RDoc {[ "id" := VStr new_id ]}).

Definition get_chapter (chapter_id : string) : M response :=
  o <- lift (oid chapter_id) ;;
  d <- find_one "chapter" [("_id", VOid o)] ;;
  if falsy d then raise (HTTPException 404 "Chapter not found")
  else ret (returned (serialize d)).

(* -------------------- Progress -------------------- *)

Definition progress_key (user_id novel_id : string) : query :=
  [("user_id", VStr user_id); ("novel_id", VStr novel_id)].

Definition get_progress (user_id novel_id : string) : M response :=
  d <- find_one "progress" (progress_key user_id novel_id) ;;
  ret (if falsy d then RNull else returned (serialize d)).

Definition upsert_progress (p : ProgressUpsert.t) : M response :=
  update_one_upsert "progress"
    (progress_key (ProgressUpsert.user_id p) (ProgressUpsert.novel_id p))
    [("user_id", VStr (ProgressUpsert.user_id p));
     ("novel_id", VStr (ProgressUpsert.novel_id p));
     ("chapter_id", VStr (ProgressUpsert.chapter_id p));
     ("position", VFloat (ProgressUpsert.position p))] ;;;
  d <- find_one "progress"
         (progress_key (ProgressUpsert.user_id p) (ProgressUpsert.novel_id p)) ;;
  ret (returned (serialize d)).

(* -------------------- Seed (Demo Data) -------------------- *)

Definition ch1_content : string :=
  "The city-orbit glowed like a halo around the dead moon. As Kestrel aligned the ship with Dock 47, the hull hummed—anxious, aware."
  +:+ nl +:+ dq +:+ "You sure about this?" +:+ dq
  +:+ " the ship asked, voice like rain on glass."
  +:+ nl +:+ dq +:+ "No," +:+ dq +:+ " she said, and smiled.".

Definition ch2_content : string :=
  "The transmission carried a heartbeat buried in static. Every station they passed began to blink in unison."
  +:+ nl +:+ "The pattern spelled a name Kestrel swore she'd forgotten.".

Definition ch3_content : string :=
  "Morning arrived in layers, like rings inside a tree. Jae clipped the excess day and folded it into the compost of yesterday.".

Definition seed_demo_data : M response :=
  n <- count_documents "novel" [] ;;
  if 0 <? n then
    docs <- find "novel" [] ;;
    ret (RSeed "exists" (serialize_dict <$> limit 5 docs))
  else
    n1 <- lift (Novel.new "Neon Skies of Andromeda" "Ava Kestrel"
                  "A rogue pilot and a sentient starship uncover a conspiracy spanning galaxies."
                  (Some "https://images.unsplash.com/photo-1520975980471-4f0f2c56b05c?q=80&w=1200&auto=format&fit=crop")
                  (Some ["Sci-Fi"; "Space Opera"; "Adventure"])) ;;
    n2 <- lift (Novel.new "Quantum Garden" "Jun Park"
                  "In a city where time blossoms like petals, a gardener tends to timelines."
                  (Some "https://images.unsplash.com/photo-1526318472351-c75fcf070305?q=80&w=1200&auto=format&fit=crop")
                  (Some ["Speculative"; "Time"; "Mystery"])) ;;
    n1_id <- create_document "novel" n1 ;;
    n2_id <- create_document "novel" n2 ;;
    ch1 <- lift (Chapter.new n1_id 1 "Docking Under Neon" ch1_content) ;;
    ch2 <- lift (Chapter.new n1_id 2 "Ghost Frequencies" ch2_content) ;;
    ch3 <- lift (Chapter.new n2_id 1 "Pruning the Dawn" ch3_content) ;;
    create_document "chapter" ch1 ;;;
    create_document "chapter" ch2 ;;;
    create_document "chapter" ch3 ;;;
    docs <- find "novel" [] ;;
    ret (RSeed "seeded" (serialize_dict <$> docs)).

End Handlers.

(* ===================================================================== *)
(** * The API as a state machine *)
(* ===================================================================== *)

Inductive request :=
  | ListNovels
  | CreateNovel (novel : NovelCreate.t)
  | GetNovel (novel_id : string)
  | ListChapters (novel_id : string)
  | CreateChapter (novel_id : string) (chapter : ChapterCreate.t)
  | GetChapter (chapter_id : string)
  | GetProgress (user_id novel_id : string)
  | UpsertProgress (p : ProgressUpsert.t)
  | SeedDemoData.

Definition handle (str_other : value -> string) (r : request) : M response :=
  match r with
  | ListNovels => list_novels str_other
  | CreateNovel novel => create_novel novel
  | GetNovel novel_id => get_novel str_other novel_id
  | ListChapters novel_id => list_chapters str_other novel_id
  | CreateChapter novel_id chapter => create_chapter novel_id chapter
  | GetChapter chapter_id => get_chapter str_other chapter_id
  | GetProgress user_id novel_id => get_progress str_other user_id novel_id
  | UpsertProgress p => upsert_progress str_other p
  | SeedDemoData => seed_demo_data str_other
  end.

(** A database with no collection written and no call made. *)
Definition empty_db : db := {| collections := ∅; calls := [] |}.

(** The databases the API can bring about, starting from an empty one. *)
Inductive reachable (str_other : value -> string) : db -> Prop :=
  | reachable_empty : reachable str_other empty_db
  | reachable_step st r :
      reachable str_other st -> reachable str_other (snd (handle str_other r st)).

(** A sequence of [POST /api/progress] calls: each call's answer and the
    database it leaves. *)
Fixpoint upsert_trace (str_other : value -> string) (ps : list ProgressUpsert.t) (st : db)
  : list (result response * db) :=
  match ps with
  | [] => []
  | p :: ps' =>
      let r := upsert_progress str_other p st in
      r :: upsert_trace str_other ps' (snd r)
  end.

(* ===================================================================== *)
(** * [serialize] on Python objects: a heap of dictionaries *)
(* ===================================================================== *)

(** Dictionaries live in a heap and are passed by reference, so that
    [serialize] returning a copy or its very argument can be told apart. *)
Module Heap.

Definition loc := nat.
Abbreviation heap := (gmap nat doc).

(** [out[k] = v] on the dictionary at [l]. *)
Definition setitem (l : loc) (k : string) (v : value) (h : heap) : heap :=
  alter (insert k v) l h.

(** [out.pop(k)] on the dictionary at [l]: the dictionary loses the key. *)
Definition pop (l : loc) (k : string) (h : heap) : heap :=
  alter (delete k) l h.

(** The loop [for k, v in list(out.items())], over a snapshot of the items. *)
Definition convert_items (l : loc) (items : list (string * value)) (h : heap) : heap :=
  foldl (fun h kv =>
           match snd kv with
           | VOid o => setitem l (fst kv) (VStr (str_ObjectId o)) h
           | _ => h
           end) h items.

(** [serialize(doc)]: [doc] is [None] or a reference to a dictionary; the
    result is a reference too, with the heap the call leaves. *)
Definition serialize (str_other : value -> string) (doc : option loc) (h : heap)
  : option loc * heap :=
  match doc with
  | None => (None, h)
  | Some l =>
      match h !! l with
      | None => (Some l, h)
      | Some d =>
          if falsy (Some d) then (Some l, h)
          else
            let out := fresh (dom h) in
            let h1 := <[out := d]> h in
            let h2 :=
              match d !! "_id" with
              | Some v => setitem out "id" (VStr (py_str str_other v)) (pop out "_id" h1)
              | None => h1
              end in
            let items := map_to_list (default ∅ (h2 !! out)) in
            (Some out, convert_items out items h2)
      end
  end.

End Heap.

(* ===================================================================== *)
(** * Notions used to state the properties *)
(* ===================================================================== *)

(** The documents of a collection that a query selects. *)
Definition selected (q : query) (c : list doc) : list doc :=
  filter (fun d => matches q d = true) c.

(** A computation that leaves the collection [name] as it found it. *)
Definition preserves {A} (name : string) (m : M A) : Prop :=
  forall st, collection (snd (m st)) name = collection st name.

(** The fields [POST /api/progress] writes. *)
Definition progress_fields (p : ProgressUpsert.t) : list (string * value) :=
  [("user_id", VStr (ProgressUpsert.user_id p));
   ("novel_id", VStr (ProgressUpsert.novel_id p));
   ("chapter_id", VStr (ProgressUpsert.chapter_id p));
   ("position", VFloat (ProgressUpsert.position p))].

(** A document carries exactly the payload's four values. *)
Definition holds_payload (p : ProgressUpsert.t) (d : doc) : Prop :=
  d !! "user_id" = Some (VStr (ProgressUpsert.user_id p)) /\
  d !! "novel_id" = Some (VStr (ProgressUpsert.novel_id p)) /\
  d !! "chapter_id" = Some (VStr (ProgressUpsert.chapter_id p)) /\
  d !! "position" = Some (VFloat (ProgressUpsert.position p)).

(** How an upsert with query [q] and new fields [fs] turns the collection
    [c] into [c'], [d0] being the document written: the first selected
    document is updated in place, or a new document goes last. *)
Inductive upserted (q : query) (fs : list (string * value)) (c c' : list doc) (d0 : doc)
  : Prop :=
  | upserted_update l1 d l2 :
      c = l1 ++ d :: l2 -> c' = l1 ++ d0 :: l2 ->
      selected q l1 = [] -> matches q d = true ->
      d0 = apply_set fs d ->
      upserted q fs c c' d0
  | upserted_insert :
      selected q c = [] -> c' = c ++ [d0] ->
      d0 = <["_id" := VOid (ObjectId_new c)]> (apply_set fs (apply_set q ∅)) ->
      upserted q fs c c' d0.

(** At most one Progress record for every (user_id, novel_id) pair. *)
Definition progress_unique (st : db) : Prop :=
  forall u n, (length (selected [("user_id", VStr u); ("novel_id", VStr n)]
                         (collection st "progress")) <= 1)%nat.

(** The database after a sequence of [POST /api/progress] calls. *)
Definition upsert_all (str_other : value -> string) (ps : list ProgressUpsert.t) (st : db)
  : db :=
  foldl (fun st p => snd (upsert_progress str_other p st)) st ps.

(** The database after a document was inserted in the collection [name]. *)
Definition inserted (name : string) (d : doc) (st : db) : db :=
  {| collections :=
       <[name := collection st name
                 ++ [<["_id" := VOid (ObjectId_new (collection st name))]> d]]>
         (collections st);
     calls := calls st ++ [InsertOne name] |}.

(** A printed form of the other values, to run the handlers on examples. *)
Definition str_unspecified (v : value) : string := "?".

(** A stored Chapter record: its novel_id is text and its index an integer,
    as the Chapter schema has them. *)
Definition chapter_shaped (d : doc) : Prop :=
  (exists s, d !! "novel_id" = Some (VStr s)) /\ (exists z, d !! "index" = Some (VInt z)).

(** Two documents in ascending order of their integer index. *)
Definition index_le (a b : doc) : Prop :=
  exists x y, a !! "index" = Some (VInt x) /\ b !! "index" = Some (VInt y) /\ x <= y.

(** The database after one more call on its handle. *)
Definition logged (c : db_call) (st : db) : db :=
  {| collections := collections st; calls := calls st ++ [c] |}.

(** One turn of [serialize]'s loop, on the dictionary itself. *)
Definition convert_item (m : doc) (kv : string * value) : doc :=
  match snd kv with
  | VOid o => <[fst kv := VStr (str_ObjectId o)]> m
  | _ => m
  end.

(* ===================================================================== *)
(** * Example data *)
(* ===================================================================== *)

Definition example_upserts : list ProgressUpsert.t :=
  [ {| ProgressUpsert.user_id := "u1"; ProgressUpsert.novel_id := "n1";
       ProgressUpsert.chapter_id := "c1"; ProgressUpsert.position := 0.25%float |};
    {| ProgressUpsert.user_id := "u1"; ProgressUpsert.novel_id := "n1";
       ProgressUpsert.chapter_id := "c2"; ProgressUpsert.position := 0.75%float |} ].

Definition example_chapter (id : ObjectId) (novel_id : string) (index : Z) : doc :=
  <["_id" := VOid id]>
    (model_dump {| Chapter.novel_id := novel_id; Chapter.index := index;
                   Chapter.title := "t"; Chapter.content := "c" |}).

(** Chapters stored out of order, two of one novel sharing the index 1. *)
Definition example_chapters : list doc :=
  [ example_chapter 1%N "n1" 2; example_chapter 2%N "n1" 1;
    example_chapter 3%N "n2" 1; example_chapter 4%N "n1" 1 ].

Definition example_chapters_db : db :=
  {| collections := {[ "chapter" := example_chapters ]}; calls := [] |}.

Definition example_low_chapter : ChapterCreate.t :=
  {| ChapterCreate.index := 0; ChapterCreate.title := "t"; ChapterCreate.content := "c" |}.

Definition example_untitled_novel : NovelCreate.t :=
  {| NovelCreate.title := ""; NovelCreate.author := "a"; NovelCreate.description := "d";
     NovelCreate.cover_url := None; NovelCreate.genres := Some [] |}.

(** A heap whose only dictionary is empty, and one whose only dictionary
    has an [_id]. *)
Definition example_empty_heap : Heap.heap := {[ 0%nat := ∅ ]}.
Definition example_heap : Heap.heap := {[ 0%nat := {[ "_id" := VOid 7%N ]} ]}.

(* ===================================================================== *)
(** * Further notions *)
(* ===================================================================== *)

(** The requests of the GET endpoints. *)
Definition is_read (r : request) : bool :=
  match r with
  | ListNovels | GetNovel _ | ListChapters _ | GetChapter _ | GetProgress _ _ => true
  | CreateNovel _ | CreateChapter _ _ | UpsertProgress _ | SeedDemoData => false
  end.

(** A stored Novel record has a text title. *)
Definition novel_titled (d : doc) : Prop := exists s, d !! "title" = Some (VStr s).

(** Two documents in ascending order of their text title. *)
Definition title_le (a b : doc) : Prop :=
  exists s t, a !! "title" = Some (VStr s) /\ b !! "title" = Some (VStr t) /\
              String.leb s t = true.

Definition example_novel (id : ObjectId) (title : string) : doc :=
  <["_id" := VOid id]>
    (model_dump {| Novel.title := title; Novel.author := "a"; Novel.description := "d";
                   Novel.cover_url := None; Novel.genres := [] |}).

(** Three novels stored out of alphabetical order. *)
Definition example_novels_db : db :=
  {| collections := {[ "novel" := [ example_novel 1%N "Quantum"; example_novel 2%N "Atlas";
                                    example_novel 3%N "Neon" ] ]};
     calls := [] |}.

(** A stored Progress record names its pair in text. *)
Definition progress_shaped (d : doc) : Prop :=
  exists u n, d !! "user_id" = Some (VStr u) /\ d !! "novel_id" = Some (VStr n).

(** The database after a sequence of requests. *)
Definition run_requests (str_other : value -> string) (rs : list request) (st : db) : db :=
  foldl (fun st r => snd (handle str_other r st)) st rs.

(** The payload of the last [POST /api/progress] of a sequence of requests
    that is for the pair (u, n), if there is one. *)
Definition last_upsert (u n : string) (rs : list request) : option ProgressUpsert.t :=
  foldl (fun acc r =>
           match r with
           | UpsertProgress p =>
               if String.eqb u (ProgressUpsert.user_id p)
                  && String.eqb n (ProgressUpsert.novel_id p)
               then Some p else acc
           | _ => acc
           end) None rs.

(** The keys that [POST /api/progress] sets. *)
Definition progress_keys : list string := ["user_id"; "novel_id"; "chapter_id"; "position"].

Definition example_novel_payload : NovelCreate.t :=
  {| NovelCreate.title := "Atlas"; NovelCreate.author := "a"; NovelCreate.description := "d";
     NovelCreate.cover_url := None; NovelCreate.genres := Some ["Sci-Fi"] |}.

Definition example_chapter_payload : ChapterCreate.t :=
  {| ChapterCreate.index := 3; ChapterCreate.title := "t"; ChapterCreate.content := "c" |}.

(** The shape of the records the API stores, as the schemas have it. *)
Definition novel_valid (d : doc) : Prop :=
  (exists o, d !! "_id" = Some (VOid o)) /\
  (exists s, d !! "title" = Some (VStr s)) /\
  (exists s, d !! "author" = Some (VStr s)) /\
  (exists s, d !! "description" = Some (VStr s)) /\
  (d !! "cover_url" = Some VNone \/ exists s, d !! "cover_url" = Some (VStr s)) /\
  (exists g, d !! "genres" = Some (VList g)).

Definition chapter_valid (d : doc) : Prop :=
  (exists o, d !! "_id" = Some (VOid o)) /\
  (exists s, d !! "novel_id" = Some (VStr s)) /\
  (exists z, d !! "index" = Some (VInt z) /\ 1 <= z) /\
  (exists s, d !! "title" = Some (VStr s)) /\
  (exists s, d !! "content" = Some (VStr s)).

Definition progress_valid (d : doc) : Prop :=
  (exists o, d !! "_id" = Some (VOid o)) /\
  (exists s, d !! "user_id" = Some (VStr s)) /\
  (exists s, d !! "novel_id" = Some (VStr s)) /\
  (exists s, d !! "chapter_id" = Some (VStr s)) /\
  (exists f, d !! "position" = Some (VFloat f)).

Definition example_progress_payload : ProgressUpsert.t :=
  {| ProgressUpsert.user_id := "u1"; ProgressUpsert.novel_id := "n1";
     ProgressUpsert.chapter_id := "c1"; ProgressUpsert.position := 0.5%float |}.


(** The [k] low bytes of a number, most significant first. *)
Fixpoint be_bytes (k : nat) (n : N) : list N :=
  match k with
  | O => []
  | S k' => be_bytes k' (n / 256)%N ++ [(n mod 256)%N]
  end.

(** Whether a text holds a whitespace character. *)
Fixpoint has_space (s : string) : bool :=
  match s with
  | EmptyString => false
  | String c s' => is_space c || has_space s'
  end.

(** A text that [ObjectId] accepts although it is not 24 digits: eight
    pairs of digits, each followed by a space. *)
Definition example_spaced_id : string := "01 23 45 67 89 ab cd ef ".


(* ===================================================================== *)
(** * Properties of the model *)
(* ===================================================================== *)


(** ** ObjectId: the text form reads back *)

Lemma hex_digit_value_hex_char (d : N) :
  (d < 16)%N -> hex_digit_value (hex_char d) = Some d.
Proof.
  intros Hd.
  assert (Hc : In d (map N.of_nat (seq 0 16))).
  { apply in_map_iff. exists (N.to_nat d). split; [lia|]. apply in_seq. lia. }
  simpl in Hc.
  repeat (destruct Hc as [<- | Hc]; [reflexivity|]). destruct Hc.
Qed.

Lemma is_space_hex_char (d : N) : (d < 16)%N -> is_space (hex_char d) = false.
Proof.
  intros Hd.
  assert (Hc : In d (map N.of_nat (seq 0 16))).
  { apply in_map_iff. exists (N.to_nat d). split; [lia|]. apply in_seq. lia. }
  simpl in Hc.
  repeat (destruct Hc as [<- | Hc]; [reflexivity|]). destruct Hc.
Qed.

Lemma hex_digit_value_lt c d : hex_digit_value c = Some d -> (d < 16)%N.
Proof.
  unfold hex_digit_value. cbv zeta. set (n := N_of_ascii c).
  destruct ((48 <=? n) && (n <=? 57))%N eqn:E1.
  { apply andb_true_iff in E1 as [_ H%N.leb_le]. intros [= <-]. lia. }
  destruct ((97 <=? n) && (n <=? 102))%N eqn:E2.
  { apply andb_true_iff in E2 as [_ H%N.leb_le]. intros [= <-]. lia. }
  destruct ((65 <=? n) && (n <=? 70))%N eqn:E3; [|done].
  apply andb_true_iff in E3 as [_ H%N.leb_le]. intros [= <-]. lia.
Qed.

Lemma length_hex_digits (k : nat) : forall (n : N) (acc : string),
  String.length (hex_digits k n acc) = (k + String.length acc)%nat.
Proof.
  induction k as [|k IH]; intros n acc; simpl; [reflexivity|].
  rewrite IH. simpl. lia.
Qed.

Lemma bytes_value_app bs b : bytes_value (bs ++ [b]) = (256 * bytes_value bs + b)%N.
Proof. unfold bytes_value. by rewrite foldl_app. Qed.

Lemma length_be_bytes (k : nat) : forall n, length (be_bytes k n) = k.
Proof.
  induction k as [|k IH]; intros n; [reflexivity|].
  cbn [be_bytes]. rewrite length_app, IH. simpl. lia.
Qed.

Lemma bytes_value_be_bytes (k : nat) : forall n,
  bytes_value (be_bytes k n) = (n mod 256 ^ N.of_nat k)%N.
Proof.
  induction k as [|k IH]; intros n.
  - simpl. by rewrite N.mod_1_r.
  - cbn [be_bytes]. rewrite bytes_value_app, IH.
    rewrite Nat2N.inj_succ, N.pow_succ_r'.
    rewrite (N.Div0.mod_mul_r n 256 (256 ^ N.of_nat k)). lia.
Qed.

Lemma hex_digits_pair (k : nat) (n : N) (acc : string) :
  hex_digits (2 * S k) n acc
  = hex_digits (2 * k) (n / 256)%N
      (String (hex_char ((n / 16) mod 16)%N) (String (hex_char (n mod 16)%N) acc)).
Proof.
  replace (2 * S k)%nat with (S (S (2 * k))) by lia.
  cbn [hex_digits]. rewrite N.Div0.div_div. reflexivity.
Qed.

Lemma fromhex_hex_digits (k : nat) : forall (n : N) (acc : string) (bs : list N),
  fromhex acc = Some bs ->
  fromhex (hex_digits (2 * k) n acc) = Some (be_bytes k n ++ bs).
Proof.
  induction k as [|k IH]; intros n acc bs Hacc.
  - exact Hacc.
  - rewrite hex_digits_pair.
    rewrite (IH _ _ ((n mod 256)%N :: bs)).
    + cbn [be_bytes]. by rewrite <- app_assoc.
    + cbn [fromhex].
      rewrite is_space_hex_char by (apply N.mod_lt; lia).
      rewrite !hex_digit_value_hex_char by (apply N.mod_lt; lia).
      rewrite Hacc. do 2 f_equal.
      change 256%N with (16 * 16)%N. rewrite (N.Div0.mod_mul_r n 16 16). lia.
Qed.

Lemma str_ObjectId_full (o : ObjectId) :
  (o < 2 ^ 96)%N -> str_ObjectId o = hex_digits 24 o EmptyString.
Proof.
  intros Ho. unfold str_ObjectId, ObjectId_length.
  apply N.ltb_lt in Ho as Hb. rewrite Hb.
  by rewrite N.mod_small.
Qed.

Lemma ObjectId_of_str_str (o : ObjectId) :
  (o < 16 ^ 24)%N -> ObjectId_of_str (str_ObjectId o) = Some o.
Proof.
  intros Ho. change (16 ^ 24)%N with (2 ^ 96)%N in Ho.
  rewrite str_ObjectId_full by exact Ho. unfold ObjectId_of_str.
  rewrite length_hex_digits. cbn [String.length Nat.add Nat.eqb].
  change 24%nat with (2 * 12)%nat.
  rewrite (fromhex_hex_digits 12 o EmptyString []) by reflexivity.
  rewrite app_nil_r. unfold ObjectId_of_bytes.
  rewrite length_be_bytes. cbn [Nat.eqb].
  rewrite bytes_value_be_bytes. f_equal.
  apply N.mod_small. exact Ho.
Qed.

Lemma hex_digit_not_space c d : hex_digit_value c = Some d -> is_space c = false.
Proof.
  unfold hex_digit_value, is_space. cbv zeta. set (n := N_of_ascii c).
  intros H. apply orb_false_iff.
  destruct ((48 <=? n) && (n <=? 57))%N eqn:E1.
  { apply andb_true_iff in E1 as [H1%N.leb_le H2%N.leb_le].
    split; [apply N.eqb_neq; lia|]. apply andb_false_iff. right. apply N.leb_gt. lia. }
  destruct ((97 <=? n) && (n <=? 102))%N eqn:E2.
  { apply andb_true_iff in E2 as [H1%N.leb_le H2%N.leb_le].
    split; [apply N.eqb_neq; lia|]. apply andb_false_iff. right. apply N.leb_gt. lia. }
  destruct ((65 <=? n) && (n <=? 70))%N eqn:E3; [|done].
  apply andb_true_iff in E3 as [H1%N.leb_le H2%N.leb_le].
  split; [apply N.eqb_neq; lia|]. apply andb_false_iff. right. apply N.leb_gt. lia.
Qed.

(** What [bytes.fromhex] returns: bytes, one for every two characters when
    there is no whitespace, and fewer when there is. *)
Lemma fromhex_bytes (n : nat) : forall s bs,
  (String.length s <= n)%nat -> fromhex s = Some bs ->
  (2 * length bs <= String.length s)%nat /\
  Forall (fun b => (b < 256)%N) bs /\
  (has_space s = false -> String.length s = (2 * length bs)%nat) /\
  (has_space s = true -> (2 * length bs < String.length s)%nat).
Proof.
  induction n as [|n IH]; intros s bs Hn.
  - destruct s; [|simpl in Hn; lia]. intros [= <-]. by repeat split.
  - destruct s as [|c s]; [intros [= <-]; by repeat split|].
    cbn [fromhex has_space String.length] in *.
    destruct (is_space c) eqn:Ec.
    + intros Hs. apply IH in Hs as (Hl & Hf & _); [|lia].
      split; [lia|]. split; [exact Hf|]. split; [done|]. intros _. lia.
    + destruct (hex_digit_value c) as [top|] eqn:Et; [|done].
      destruct s as [|c' s]; [done|].
      destruct (hex_digit_value c') as [bot|] eqn:Eb; [|done].
      destruct (fromhex s) as [bs'|] eqn:Es; [|done].
      intros [= <-]. cbn [String.length] in Hn.
      apply IH in Es as (Hl & Hf & He & Hs); [|lia].
      cbn [length String.length has_space orb].
      rewrite (hex_digit_not_space _ _ Eb). cbn [orb].
      apply hex_digit_value_lt in Et, Eb.
      split; [lia|]. split; [constructor; [lia|exact Hf]|]. split.
      * intros Hsp. rewrite (He Hsp). lia.
      * intros Hsp. specialize (Hs Hsp). lia.
Qed.

Lemma bytes_value_lt (bs : list N) :
  Forall (fun b => (b < 256)%N) bs ->
  (bytes_value bs < 256 ^ N.of_nat (length bs))%N.
Proof.
  induction bs as [|b bs IH] using rev_ind; intros Hf.
  - by vm_compute.
  - apply Forall_app in Hf as [Hf Hb]. apply Forall_inv in Hb.
    rewrite bytes_value_app, length_app. cbn [length].
    replace (length bs + 1)%nat with (S (length bs)) by lia.
    rewrite Nat2N.inj_succ, N.pow_succ_r'. specialize (IH Hf). cbv beta in Hb.
    set (P := (256 ^ N.of_nat (length bs))%N) in *. lia.
Qed.

Lemma ObjectId_of_str_bytes id_str o :
  ObjectId_of_str id_str = Some o ->
  exists bs, fromhex id_str = Some bs /\ String.length id_str = 24%nat /\
             o = ObjectId_of_bytes bs.
Proof.
  unfold ObjectId_of_str. destruct (String.length id_str =? 24)%nat eqn:E; [|done].
  apply Nat.eqb_eq in E. destruct (fromhex id_str) as [bs|]; [|done].
  intros [= <-]. by exists bs.
Qed.

Lemma ObjectId_of_bytes_full (bs : list N) :
  length bs = 12%nat -> Forall (fun b => (b < 256)%N) bs ->
  (ObjectId_of_bytes bs < 2 ^ 96)%N.
Proof.
  intros Hl Hf. unfold ObjectId_of_bytes. rewrite Hl. cbn [Nat.eqb].
  apply bytes_value_lt in Hf. rewrite Hl in Hf. exact Hf.
Qed.

Lemma ObjectId_of_bytes_short (bs : list N) :
  (length bs < 12)%nat -> Forall (fun b => (b < 256)%N) bs ->
  (2 ^ 96 <= ObjectId_of_bytes bs)%N /\
  ObjectId_length (ObjectId_of_bytes bs) = length bs /\
  (ObjectId_of_bytes bs mod 2 ^ 96)%N = bytes_value bs.
Proof.
  intros Hl Hf. unfold ObjectId_of_bytes.
  destruct (length bs =? 12)%nat eqn:E; [apply Nat.eqb_eq in E; lia|].
  apply bytes_value_lt in Hf.
  assert (Hp : (256 ^ N.of_nat (length bs) <= 256 ^ 11)%N)
    by (apply N.pow_le_mono_r; lia).
  assert (Hv : (bytes_value bs < 2 ^ 96)%N).
  { eapply N.lt_le_trans; [exact Hf|]. etrans; [exact Hp|]. by vm_compute. }
  set (v := bytes_value bs) in *. set (k := N.of_nat (length bs)).
  assert (Hdiv : (((k + 1) * 2 ^ 96 + v) / 2 ^ 96 = k + 1)%N).
  { rewrite N.div_add_l by done. rewrite (N.div_small v) by exact Hv. lia. }
  assert (Hmod : (((k + 1) * 2 ^ 96 + v) mod 2 ^ 96 = v)%N).
  { rewrite N.add_comm, N.Div0.mod_add. by apply N.mod_small. }
  split; [|split; [|exact Hmod]].
  - assert (2 ^ 96 <= (k + 1) * 2 ^ 96)%N by (apply N.le_mul_l; lia). lia.
  - unfold ObjectId_length. rewrite Hdiv.
    assert (Hge : (2 ^ 96 <= (k + 1) * 2 ^ 96 + v)%N).
    { assert (2 ^ 96 <= (k + 1) * 2 ^ 96)%N by (apply N.le_mul_l; lia). lia. }
    apply N.ltb_ge in Hge. rewrite Hge. unfold k. lia.
Qed.

(** ** Sorting *)

Lemma fin_leb_total m1 e1 m2 e2 :
  fin_leb m1 e1 m2 e2 = false -> fin_leb m2 e2 m1 e1 = true.
Proof.
  unfold fin_leb. rewrite (Z.min_comm e2 e1). intros H.
  apply Z.leb_le. apply Z.leb_gt in H. lia.
Qed.

Lemma num_leb_total a b : num_leb a b = false -> num_leb b a = true.
Proof.
  destruct a, b; simpl; try congruence; try reflexivity. apply fin_leb_total.
Qed.

Lemma key_leb_total a b : key_leb a b = false -> key_leb b a = true.
Proof.
  destruct a, b; simpl; try congruence; try reflexivity.
  - apply num_leb_total.
  - intros H. destruct (String.leb_total s s0) as [H'|H']; congruence.
  - intros H. apply N.leb_le. apply N.leb_gt in H. lia.
Qed.

Lemma insert_sorted_perm field d l : Permutation (insert_sorted field d l) (d :: l).
Proof.
  induction l as [|x r IH]; simpl; [reflexivity|].
  destruct (doc_leb field d x); [reflexivity|].
  rewrite IH. apply perm_swap.
Qed.

Lemma sort_perm field l : Permutation (sort field l) l.
Proof.
  induction l as [|x r IH]; simpl; [reflexivity|].
  rewrite insert_sorted_perm. by constructor.
Qed.

Lemma insert_sorted_Sorted field d l :
  Sorted (doc_le field) l -> Sorted (doc_le field) (insert_sorted field d l).
Proof.
  induction 1 as [|x r Hr IH Hx]; simpl.
  - repeat constructor.
  - destruct (doc_leb field d x) eqn:E.
    + constructor; [by constructor|by constructor].
    + constructor; [exact IH|].
      destruct Hx as [|y r' Hy]; simpl.
      * constructor. by apply key_leb_total.
      * destruct (doc_leb field d y); constructor; [by apply key_leb_total|exact Hy].
Qed.

Lemma sort_Sorted field l : Sorted (doc_le field) (sort field l).
Proof.
  induction l as [|x r IH]; simpl; [constructor|]. by apply insert_sorted_Sorted.
Qed.

(** ** Running the monad *)

Ltac run :=
  unfold bind, ret, raise, lift, log_call, read_collection, write_collection; simpl.

Lemma collection_write st name name' c cs :
  collection {| collections := <[name' := c]> (collections st); calls := cs |} name
  = if decide (name' = name) then c else collection st name.
Proof.
  unfold collection. simpl. rewrite lookup_insert. by case_decide.
Qed.

(** ** Frame lemmas: which collections a computation leaves alone *)

Create HintDb preserves.

Lemma preserves_ret {A} name (a : A) : preserves name (ret a).
Proof. by intros st. Qed.

Lemma preserves_raise {A} name e : preserves name (@raise A e).
Proof. by intros st. Qed.

Lemma preserves_lift {A} name (r : result A) : preserves name (lift r).
Proof. by intros st. Qed.

Lemma preserves_bind {A B} name (m : M A) (k : A -> M B) :
  preserves name m -> (forall a, preserves name (k a)) -> preserves name (bind m k).
Proof.
  intros Hm Hk st. unfold bind. specialize (Hm st).
  destruct (m st) as [[a|e] st']; simpl in *; [|done].
  by rewrite Hk.
Qed.

Lemma preserves_log_call name c : preserves name (log_call c).
Proof. by intros st. Qed.

Lemma preserves_read_collection name name' : preserves name (read_collection name').
Proof. by intros st. Qed.

Lemma preserves_write_collection name name' c :
  name' <> name -> preserves name (write_collection name' c).
Proof.
  intros Hne st. unfold write_collection. simpl.
  rewrite collection_write. by case_decide.
Qed.

#[local] Hint Resolve preserves_ret preserves_raise preserves_lift preserves_bind
  preserves_log_call preserves_read_collection preserves_write_collection : preserves.

Lemma preserves_find_one name name' q : preserves name (find_one name' q).
Proof. unfold find_one. auto with preserves. Qed.

Lemma preserves_find name name' q : preserves name (find name' q).
Proof. unfold find. auto with preserves. Qed.

Lemma preserves_count_documents name name' q : preserves name (count_documents name' q).
Proof. unfold count_documents. auto with preserves. Qed.

Lemma preserves_insert_one name name' d : name' <> name -> preserves name (insert_one name' d).
Proof.
  intros Hne. unfold insert_one.
  apply preserves_bind; [auto with preserves|intros _].
  destruct (bson_ok d); auto 10 with preserves.
Qed.

Lemma preserves_create_document {T} `{BaseModel T} name name' (data : T) :
  name' <> name -> preserves name (create_document name' data).
Proof.
  intros Hne. unfold create_document.
  apply preserves_bind; [by apply preserves_insert_one|auto with preserves].
Qed.

#[local] Hint Resolve preserves_find_one preserves_find preserves_count_documents
  preserves_insert_one preserves_create_document : preserves.

Lemma preserves_if {A} name (b : bool) (m1 m2 : M A) :
  preserves name m1 -> preserves name m2 -> preserves name (if b then m1 else m2).
Proof. by destruct b. Qed.

#[local] Hint Resolve preserves_if : preserves.

Lemma preserves_progress_other str_other r :
  (forall p, r <> UpsertProgress p) -> preserves "progress" (handle str_other r).
Proof.
  intros Hr. destruct r; simpl;
    [unfold list_novels|unfold create_novel|unfold get_novel|unfold list_chapters
    |unfold create_chapter|unfold get_chapter|unfold get_progress
    |by destruct (Hr p)|unfold seed_demo_data];
    auto 30 with preserves.
Qed.

(** ** Selecting and updating documents *)

Lemma selected_app q l1 l2 : selected q (l1 ++ l2) = selected q l1 ++ selected q l2.
Proof. apply filter_app. Qed.

Lemma selected_cons q d l :
  selected q (d :: l) = if matches q d then d :: selected q l else selected q l.
Proof.
  unfold selected. destruct (matches q d) eqn:E.
  - by rewrite filter_cons_True.
  - rewrite filter_cons_False; [done|]. by rewrite E.
Qed.

Lemma selected_none q c :
  (forall d, d ∈ c -> matches q d = false) -> selected q c = [].
Proof.
  induction c as [|x r IH]; intros H; [done|].
  rewrite selected_cons, (H x) by constructor.
  apply IH. intros d Hd. apply H. by constructor.
Qed.

Lemma update_first_Some q fs c c' :
  update_first q fs c = Some c' ->
  exists l1 d l2, c = l1 ++ d :: l2 /\ c' = l1 ++ apply_set fs d :: l2 /\
                  selected q l1 = [] /\ matches q d = true.
Proof.
  revert c'. induction c as [|x r IH]; intros c' H; simpl in H; [discriminate|].
  destruct (matches q x) eqn:E.
  - inversion H; subst. by exists [], x, r.
  - destruct (update_first q fs r) as [r'|]; [|discriminate].
    inversion H; subst.
    destruct (IH r' eq_refl) as (l1 & d & l2 & -> & -> & Hl1 & Hd).
    exists (x :: l1), d, l2. repeat split; [|done].
    by rewrite selected_cons, E.
Qed.

Lemma update_first_None q fs c : update_first q fs c = None -> selected q c = [].
Proof.
  induction c as [|x r IH]; simpl; [done|].
  rewrite selected_cons. destruct (matches q x); [discriminate|].
  destruct (update_first q fs r); [discriminate|]. auto.
Qed.

Lemma update_one_upsert_run name q fs st :
  exists c' d0,
    update_one_upsert name q fs st
    = (Ok tt, {| collections := <[name := c']> (collections st);
                 calls := calls st ++ [UpdateOne name] |}) /\
    upserted q fs (collection st name) c' d0.
Proof.
  unfold update_one_upsert. run.
  change (collection {| collections := collections st;
                        calls := calls st ++ [UpdateOne name] |} name)
    with (collection st name).
  destruct (update_first q fs (collection st name)) as [c'|] eqn:E.
  - destruct (update_first_Some _ _ _ _ E) as (l1 & d & l2 & Hc & Hc' & Hl1 & Hd).
    exists c', (apply_set fs d). split; [done|]. by eapply upserted_update.
  - eexists _, _. split; [done|].
    apply upserted_insert; [by eapply update_first_None|done..].
Qed.

(** ** What [POST /api/progress] writes *)

Lemma apply_set_progress_fields p d : holds_payload p (apply_set (progress_fields p) d).
Proof. unfold holds_payload, apply_set, progress_fields. simpl. by simplify_map_eq. Qed.

Lemma matches_progress_key u n d :
  matches [("user_id", VStr u); ("novel_id", VStr n)] d
  = field_matches (d !! "user_id") (VStr u) && field_matches (d !! "novel_id") (VStr n).
Proof. unfold matches. simpl. by rewrite andb_true_r. Qed.

Lemma matches_holds_payload p u n d :
  holds_payload p d ->
  matches [("user_id", VStr u); ("novel_id", VStr n)] d
  = String.eqb u (ProgressUpsert.user_id p) && String.eqb n (ProgressUpsert.novel_id p).
Proof.
  intros (Hu & Hn & _). rewrite matches_progress_key, Hu, Hn. done.
Qed.

Lemma upserted_holds_payload p q c c' d0 :
  upserted q (progress_fields p) c c' d0 -> holds_payload p d0.
Proof.
  intros [l1 d l2 _ _ _ _ ->| _ _ ->].
  - apply apply_set_progress_fields.
  - destruct (apply_set_progress_fields p (apply_set q ∅)) as (?&?&?&?).
    unfold holds_payload. by simplify_map_eq.
Qed.

(** After an upsert on the payload's own key, the first selected document is
    the one written. *)
Lemma upserted_head_selected p c c' d0 :
  let q := progress_key (ProgressUpsert.user_id p) (ProgressUpsert.novel_id p) in
  upserted q (progress_fields p) c c' d0 ->
  head (selected q c') = Some d0.
Proof.
  intros q Hup.
  assert (Hm : matches q d0 = true).
  { unfold q, progress_key. rewrite (matches_holds_payload p) by by eapply upserted_holds_payload.
    by rewrite !String.eqb_refl. }
  destruct Hup as [l1 d l2 _ -> Hl1 _ _| Hc -> _].
  - by rewrite selected_app, Hl1, selected_cons, Hm.
  - by rewrite selected_app, Hc, selected_cons, Hm.
Qed.

Lemma find_one_run name q st :
  find_one name q st
  = (Ok (head (selected q (collection st name))),
     {| collections := collections st; calls := calls st ++ [FindOne name] |}).
Proof. reflexivity. Qed.

Lemma upsert_progress_run str_other p st :
  exists c' d0,
    upsert_progress str_other p st
    = (Ok (RDoc (serialize_dict str_other d0)),
       {| collections := <["progress" := c']> (collections st);
          calls := (calls st ++ [UpdateOne "progress"]) ++ [FindOne "progress"] |}) /\
    upserted (progress_key (ProgressUpsert.user_id p) (ProgressUpsert.novel_id p))
      (progress_fields p) (collection st "progress") c' d0.
Proof.
  destruct (update_one_upsert_run "progress"
              (progress_key (ProgressUpsert.user_id p) (ProgressUpsert.novel_id p))
              (progress_fields p) st) as (c' & d0 & Hrun & Hup).
  exists c', d0. split; [|exact Hup].
  unfold upsert_progress. fold (progress_fields p).
  unfold bind at 1. rewrite Hrun.
  unfold bind. rewrite find_one_run. simpl calls. simpl collections.
  rewrite collection_write. rewrite decide_True by done.
  rewrite (upserted_head_selected p _ _ _ Hup). reflexivity.
Qed.

(** ** [serialize] keeps the fields it does not rename *)

Lemma serialize_dict_lookup str_other d k :
  k <> "id" -> k <> "_id" ->
  serialize_dict str_other d !! k = stringify <$> (d !! k).
Proof.
  intros Hid H_id. unfold serialize_dict, falsy.
  case_bool_decide as He.
  - subst d. by rewrite lookup_empty.
  - destruct (d !! "_id") as [v|]; rewrite lookup_fmap; [|done].
    by rewrite lookup_insert_ne, lookup_delete_ne.
Qed.

Lemma serialize_dict_holds_payload str_other p d :
  holds_payload p d -> holds_payload p (serialize_dict str_other d).
Proof.
  intros (Hu & Hn & Hc & Hp).
  unfold holds_payload. rewrite !serialize_dict_lookup by done.
  by rewrite Hu, Hn, Hc, Hp.
Qed.

(** ** One Progress record per (user_id, novel_id) *)

Lemma upserted_selected_same p c c' d0 :
  let q := progress_key (ProgressUpsert.user_id p) (ProgressUpsert.novel_id p) in
  upserted q (progress_fields p) c c' d0 ->
  (length (selected q c) <= 1)%nat ->
  selected q c' = [d0].
Proof.
  intros q Hup Hle.
  pose proof (upserted_head_selected p _ _ _ Hup) as Hhead. fold q in Hhead.
  destruct Hup as [l1 d l2 -> -> Hl1 Hd _| Hc -> _].
  - rewrite selected_app, Hl1, selected_cons, Hd in Hle. simpl in Hle.
    assert (Hl2 : selected q l2 = []) by (destruct (selected q l2); [done|simpl in Hle; lia]).
    rewrite selected_app, Hl1, selected_cons in Hhead |- *.
    destruct (matches q d0); [|by rewrite Hl2 in Hhead].
    by rewrite Hl2.
  - rewrite selected_app, Hc, selected_cons in Hhead |- *.
    by destruct (matches q d0).
Qed.

Lemma upserted_selected_other p c c' d0 u n :
  let q := progress_key (ProgressUpsert.user_id p) (ProgressUpsert.novel_id p) in
  upserted q (progress_fields p) c c' d0 ->
  String.eqb u (ProgressUpsert.user_id p) && String.eqb n (ProgressUpsert.novel_id p) = false ->
  (length (selected (progress_key u n) c') <= length (selected (progress_key u n) c))%nat.
Proof.
  intros q Hup Hne.
  assert (Hm : matches (progress_key u n) d0 = false).
  { unfold progress_key. rewrite (matches_holds_payload p); [done|].
    by eapply upserted_holds_payload. }
  destruct Hup as [l1 d l2 -> -> _ _ _| _ -> _].
  - rewrite !selected_app, !selected_cons, Hm, !length_app.
    destruct (matches (progress_key u n) d); simpl; lia.
  - rewrite selected_app, selected_cons, Hm. simpl. by rewrite app_nil_r.
Qed.

Lemma upsert_progress_unique str_other p st :
  progress_unique st -> progress_unique (snd (upsert_progress str_other p st)).
Proof.
  intros Hinv u n.
  destruct (upsert_progress_run str_other p st) as (c' & d0 & -> & Hup).
  simpl snd. rewrite collection_write, decide_True by done.
  fold (progress_key u n).
  destruct (String.eqb u (ProgressUpsert.user_id p)
            && String.eqb n (ProgressUpsert.novel_id p)) eqn:E.
  - apply andb_true_iff in E as [->%String.eqb_eq ->%String.eqb_eq].
    rewrite (upserted_selected_same p _ _ _ Hup); [done|]. apply Hinv.
  - etrans; [by eapply upserted_selected_other|]. apply Hinv.
Qed.

Lemma reachable_progress_unique str_other st :
  reachable str_other st -> progress_unique st.
Proof.
  induction 1 as [|st r _ IH].
  - intros u n. unfold collection. simpl. rewrite lookup_empty. simpl. lia.
  - destruct r; try (intros u n; rewrite preserves_progress_other by done; apply IH).
    by apply upsert_progress_unique.
Qed.

Lemma upsert_progress_step str_other p st :
  progress_unique st ->
  exists d,
    fst (upsert_progress str_other p st) = Ok (RDoc (serialize_dict str_other d)) /\
    selected (progress_key (ProgressUpsert.user_id p) (ProgressUpsert.novel_id p))
      (collection (snd (upsert_progress str_other p st)) "progress") = [d] /\
    holds_payload p d.
Proof.
  intros Hinv.
  destruct (upsert_progress_run str_other p st) as (c' & d0 & -> & Hup).
  exists d0. simpl. rewrite collection_write, decide_True by done.
  split; [done|]. split; [|by eapply upserted_holds_payload].
  apply (upserted_selected_same p _ _ _ Hup). apply Hinv.
Qed.

Lemma upsert_progress_stored str_other p st :
  exists stored,
    fst (upsert_progress str_other p st) = Ok (RDoc (serialize_dict str_other stored)) /\
    head (selected (progress_key (ProgressUpsert.user_id p) (ProgressUpsert.novel_id p))
            (collection (snd (upsert_progress str_other p st)) "progress")) = Some stored /\
    holds_payload p stored.
Proof.
  destruct (upsert_progress_run str_other p st) as (c' & d0 & -> & Hup).
  exists d0. simpl. rewrite collection_write, decide_True by done.
  split; [done|]. split; [apply (upserted_head_selected p _ _ _ Hup)|].
  by eapply upserted_holds_payload.
Qed.

(* ===================================================================== *)
(** * Reading progress back: the upsert *)
(* ===================================================================== *)

(** C9: for every accepted [POST /api/progress] request, the document
    returned is the serialized stored record of the payload's
    (user_id, novel_id) pair, and both carry the payload's user_id, novel_id,
    chapter_id and position: the whole record is overwritten, not only the
    position. *)
Theorem upsert_progress_overwrites_record (str_other : value -> string)
    (p : ProgressUpsert.t) (st : db) :
  exists stored answer,
    fst (upsert_progress str_other p st) = Ok (RDoc answer) /\
    head (selected (progress_key (ProgressUpsert.user_id p) (ProgressUpsert.novel_id p))
            (collection (snd (upsert_progress str_other p st)) "progress")) = Some stored /\
    answer = serialize_dict str_other stored /\
    holds_payload p stored /\
    holds_payload p answer.
Proof.
  destruct (upsert_progress_stored str_other p st) as (stored & Hfst & Hhead & Hp).
  exists stored, (serialize_dict str_other stored).
  split; [exact Hfst|]. split; [exact Hhead|]. split; [reflexivity|].
  split; [exact Hp|]. by apply serialize_dict_holds_payload.
Qed.

(** C3: from any database the API can bring about, after any sequence of
    [POST /api/progress] calls for one (user_id, novel_id) pair, every call
    returns the serialized record that is then the only one of the pair and
    holds that call's payload; so after the last call there is exactly one
    record of the pair and its position is the last call's. *)
Theorem upsert_progress_single_record (str_other : value -> string) (st : db)
    (u n : string) (ps : list ProgressUpsert.t) :
  reachable str_other st ->
  Forall (fun p => ProgressUpsert.user_id p = u /\ ProgressUpsert.novel_id p = n) ps ->
  Forall2 (fun p out => exists d,
             fst out = Ok (RDoc (serialize_dict str_other d)) /\
             selected (progress_key u n) (collection (snd out) "progress") = [d] /\
             holds_payload p d)
    ps (upsert_trace str_other ps st) /\
  (forall p, last ps = Some p ->
     exists d,
       selected (progress_key u n) (collection (upsert_all str_other ps st) "progress") = [d] /\
       d !! "position" = Some (VFloat (ProgressUpsert.position p))).
Proof.
  intros Hreach Hps. revert st Hreach.
  induction Hps as [|p ps' [Hu Hn] Hps' IH]; intros st Hreach.
  - split; [constructor|]. intros p Hp. discriminate.
  - pose proof (reachable_progress_unique _ _ Hreach) as Hinv.
    destruct (upsert_progress_step str_other p st Hinv) as (d & Hout & Hsel & Hd).
    rewrite Hu, Hn in Hsel.
    assert (Hreach' : reachable str_other (snd (upsert_progress str_other p st)))
      by apply (reachable_step str_other st (UpsertProgress p) Hreach).
    destruct (IH _ Hreach') as [IH1 IH2].
    split.
    + simpl. constructor; [by exists d|exact IH1].
    + intros p0 Hlast. destruct ps' as [|p' ps''].
      * simpl in Hlast. inversion Hlast; subst p0.
        exists d. split; [exact Hsel|]. by destruct Hd as (_ & _ & _ & Hpos).
      * apply IH2. exact Hlast.
Qed.

(* ===================================================================== *)
(** * Creating records *)
(* ===================================================================== *)

Lemma bson_ok_spec (d : doc) :
  bson_ok d = true <-> forall k v, d !! k = Some v -> bson_value_ok v = true.
Proof.
  unfold bson_ok. rewrite forallb_forall. split.
  - intros Hall k v Hk. apply (Hall (k, v)).
    apply list_elem_of_In. by apply elem_of_map_to_list.
  - intros Hall [k v] Hin. apply (Hall k).
    apply elem_of_map_to_list. by apply list_elem_of_In.
Qed.

(** A novel holds no integer: the encoder takes every Novel record. *)
Lemma bson_ok_Novel (m : Novel.t) : bson_ok (model_dump m) = true.
Proof.
  apply bson_ok_spec. intros k v Hk. unfold model_dump, Novel.dump in Hk.
  repeat (rewrite lookup_insert in Hk; case_decide;
          [simplify_eq; by try destruct (Novel.cover_url m)|]).
  rewrite lookup_singleton in Hk. case_decide; by simplify_eq.
Qed.

(** A chapter is taken exactly when its index fits in eight bytes. *)
Lemma bson_ok_Chapter (m : Chapter.t) :
  bson_ok (model_dump m) = bson_value_ok (VInt (Chapter.index m)).
Proof.
  assert (Hi : (model_dump m : doc) !! "index" = Some (VInt (Chapter.index m))).
  { unfold model_dump, Chapter.dump. by simplify_map_eq. }
  destruct (bson_value_ok (VInt (Chapter.index m))) eqn:E.
  - clear Hi. apply bson_ok_spec. intros k v Hk. unfold model_dump, Chapter.dump in Hk.
    repeat (rewrite lookup_insert in Hk; case_decide; [by simplify_eq|]).
    rewrite lookup_singleton in Hk. case_decide; by simplify_eq.
  - destruct (bson_ok (model_dump m)) eqn:E'; [|done].
    rewrite <- E. symmetry. exact (proj1 (bson_ok_spec _) E' "index" _ Hi).
Qed.

Lemma create_document_run {T} `{BaseModel T} name (data : T) st :
  bson_ok (model_dump data) = true ->
  create_document name data st
  = (Ok (str_ObjectId (ObjectId_new (collection st name))),
     inserted name (model_dump data) st).
Proof.
  intros Hok. unfold create_document, insert_one, bind, log_call. by rewrite Hok.
Qed.

Lemma create_document_overflow {T} `{BaseModel T} name (data : T) st :
  bson_ok (model_dump data) = false ->
  create_document name data st
  = (Raise (OverflowError "MongoDB can only handle up to 8-byte ints"),
     logged (InsertOne name) st).
Proof.
  intros Hok. unfold create_document, insert_one, bind, log_call. by rewrite Hok.
Qed.

Ltac bson_taken :=
  lazymatch goal with
  | |- bson_ok (@model_dump Novel.t _ _) = true => apply bson_ok_Novel
  | |- bson_ok (@model_dump Chapter.t _ _) = true =>
      rewrite bson_ok_Chapter; reflexivity
  end.

Lemma create_novel_run st (t a d : string) (c : option string) (g : list string) :
  create_novel {| NovelCreate.title := t; NovelCreate.author := a;
                  NovelCreate.description := d; NovelCreate.cover_url := c;
                  NovelCreate.genres := Some g |} st
  = (Ok (RDoc {[ "id" := VStr (str_ObjectId (ObjectId_new (collection st "novel"))) ]}),
     inserted "novel"
       (model_dump {| Novel.title := t; Novel.author := a; Novel.description := d;
                      Novel.cover_url := c; Novel.genres := g |}) st).
Proof.
  unfold create_novel, Novel.new, bind, lift. cbn [NovelCreate.genres].
  by rewrite create_document_run by bson_taken.
Qed.

Lemma collection_inserted name name' d st :
  collection (inserted name' d st) name
  = if decide (name' = name)
    then collection st name ++ [<["_id" := VOid (ObjectId_new (collection st name))]> d]
    else collection st name.
Proof.
  unfold inserted. rewrite collection_write. case_decide; [by subst|done].
Qed.

Lemma http_status_Ok (v : response) : http_status (Ok v) = 200 \/ http_status (Ok v) = 500.
Proof. simpl. destruct (json_ok v); auto. Qed.

Lemma upsert_progress_not_422 str_other p st :
  http_status (fst (upsert_progress str_other p st)) <> 422.
Proof.
  destruct (upsert_progress_stored str_other p st) as (stored & Hfst & _).
  rewrite Hfst.
  destruct (http_status_Ok (RDoc (serialize_dict str_other stored))) as [H|H];
    rewrite H; discriminate.
Qed.

(** C2: the Progress schema takes the boundaries 0.0 and 1.0 and refuses
    -0.01 and 1.01, but [POST /api/progress] never consults it: whatever the
    database, a payload with position -0.01 or 1.01 is handled like one with
    0.0 or 1.0: the answer is not 422, and the position is stored and
    returned. *)
Theorem upsert_progress_stores_out_of_range (str_other : value -> string) (st : db)
    (u n c : string) :
  (exists m, Progress.new u n c 0%float = Ok m) /\
  (exists m, Progress.new u n c 1%float = Ok m) /\
  Progress.new u n c (-0.01)%float = Raise (ValidationError "position" "greater_than_equal") /\
  Progress.new u n c 1.01%float = Raise (ValidationError "position" "less_than_equal") /\
  Forall (fun pos =>
            let p := {| ProgressUpsert.user_id := u; ProgressUpsert.novel_id := n;
                        ProgressUpsert.chapter_id := c; ProgressUpsert.position := pos |} in
            http_status (fst (upsert_progress str_other p st)) <> 422 /\
            exists stored,
              fst (upsert_progress str_other p st)
              = Ok (RDoc (serialize_dict str_other stored)) /\
              head (selected (progress_key u n)
                      (collection (snd (upsert_progress str_other p st)) "progress"))
              = Some stored /\
              stored !! "position" = Some (VFloat pos) /\
              serialize_dict str_other stored !! "position" = Some (VFloat pos))
    [0%float; 1%float; (-0.01)%float; 1.01%float].
Proof.
  split; [by eexists|]. split; [by eexists|]. split; [done|]. split; [done|].
  assert (Hany : forall pos,
            let p := {| ProgressUpsert.user_id := u; ProgressUpsert.novel_id := n;
                        ProgressUpsert.chapter_id := c; ProgressUpsert.position := pos |} in
            http_status (fst (upsert_progress str_other p st)) <> 422 /\
            exists stored,
              fst (upsert_progress str_other p st)
              = Ok (RDoc (serialize_dict str_other stored)) /\
              head (selected (progress_key u n)
                      (collection (snd (upsert_progress str_other p st)) "progress"))
              = Some stored /\
              stored !! "position" = Some (VFloat pos) /\
              serialize_dict str_other stored !! "position" = Some (VFloat pos)).
  { intros pos p. split; [apply upsert_progress_not_422|].
    destruct (upsert_progress_stored str_other p st) as (stored & Hfst & Hhead & Hstored).
    exists stored. split; [exact Hfst|]. split; [exact Hhead|].
    pose proof (serialize_dict_holds_payload str_other _ _ Hstored) as (_ & _ & _ & Hpos').
    destruct Hstored as (_ & _ & _ & Hpos). by split. }
  repeat (constructor; [apply Hany|]). constructor.
Qed.

Lemma max_oid_bound c d o :
  d ∈ c -> d !! "_id" = Some (VOid o) -> (o <= max_oid c)%N.
Proof.
  induction 1 as [d c|d x c _ IH]; intros Hd; simpl.
  - rewrite Hd. lia.
  - specialize (IH Hd). destruct (x !! "_id") as [[]|]; lia.
Qed.

Lemma selected_ObjectId_new c : selected [("_id", VOid (ObjectId_new c))] c = [].
Proof.
  apply selected_none. intros d Hd.
  unfold matches. simpl. rewrite andb_true_r.
  destruct (d !! "_id") as [[]|] eqn:E; simpl; try done.
  apply N.eqb_neq. intros Ho.
  pose proof (max_oid_bound _ _ _ Hd E) as Hle. unfold ObjectId_new in Ho. lia.
Qed.

(** A document just inserted is the one its new id finds. *)
Lemma find_one_inserted name d st :
  fst (find_one name [("_id", VOid (ObjectId_new (collection st name)))] (inserted name d st))
  = Ok (Some (<["_id" := VOid (ObjectId_new (collection st name))]> d)).
Proof.
  rewrite find_one_run. simpl. f_equal.
  rewrite collection_inserted, decide_True by done.
  rewrite selected_app, selected_ObjectId_new, selected_cons.
  unfold matches. simpl. rewrite lookup_insert_eq. simpl. by rewrite N.eqb_refl.
Qed.

(** Without the omitted-genres slip the round trip of C1 holds: a novel
    posted with its genres is read back, under the id returned, with the
    fields of the payload. *)
Lemma create_novel_get_novel str_other st novel g :
  NovelCreate.genres novel = Some g ->
  (ObjectId_new (collection st "novel") < 16 ^ 24)%N ->
  exists id d,
    fst (create_novel novel st) = Ok (RDoc {[ "id" := VStr id ]}) /\
    fst (get_novel str_other id (snd (create_novel novel st))) = Ok (RDoc d) /\
    d !! "id" = Some (VStr id) /\
    d !! "title" = Some (VStr (NovelCreate.title novel)) /\
    d !! "author" = Some (VStr (NovelCreate.author novel)) /\
    d !! "description" = Some (VStr (NovelCreate.description novel)) /\
    d !! "cover_url"
      = Some (match NovelCreate.cover_url novel with Some u => VStr u | None => VNone end) /\
    d !! "genres" = Some (VList g).
Proof.
  intros Hg Hlt. destruct novel as [t a de cu ge]. simpl in *. subst ge.
  set (o := ObjectId_new (collection st "novel")) in *.
  set (data := {| Novel.title := t; Novel.author := a; Novel.description := de;
                  Novel.cover_url := cu; Novel.genres := g |}).
  assert (Hrun : create_novel
                   {| NovelCreate.title := t; NovelCreate.author := a;
                      NovelCreate.description := de; NovelCreate.cover_url := cu;
                      NovelCreate.genres := Some g |} st
                 = (Ok (RDoc {[ "id" := VStr (str_ObjectId o) ]}),
                    inserted "novel" (model_dump data) st)) by apply create_novel_run.
  rewrite Hrun. simpl fst. simpl snd. clear Hrun.
  exists (str_ObjectId o), (serialize_dict str_other (<["_id" := VOid o]> (model_dump data))).
  split; [done|].
  assert (Hne : <["_id" := VOid o]> (model_dump data) <> ∅) by apply insert_non_empty.
  split.
  - unfold get_novel, oid. rewrite ObjectId_of_str_str by exact Hlt.
    unfold bind, lift.
    pose proof (find_one_inserted "novel" (model_dump data) st) as Hfind.
    fold o in Hfind.
    destruct (find_one "novel" [("_id", VOid o)] (inserted "novel" (model_dump data) st))
      as [r st'].
    simpl in Hfind. subst r. simpl. by rewrite bool_decide_false.
  - split.
    { unfold serialize_dict, falsy. rewrite bool_decide_false by done.
      rewrite lookup_insert_eq, lookup_fmap, lookup_insert_eq. done. }
    rewrite !serialize_dict_lookup by done.
    unfold model_dump, Novel.dump, data. simpl.
    repeat split; simplify_map_eq; try done.
    by destruct cu.
Qed.

(** C1: a payload that omits genres reaches the Novel schema with
    [genres=None], which is not a list: the handler raises, the request is
    answered 500, and no novel is inserted, so there is no id to read back
    and no empty list of genres. *)
Theorem create_novel_genres_omitted (st : db) (t a d : string) (c : option string) :
  let novel := {| NovelCreate.title := t; NovelCreate.author := a;
                  NovelCreate.description := d; NovelCreate.cover_url := c;
                  NovelCreate.genres := None |} in
  create_novel novel st = (Raise (ValidationError "genres" "list_type"), st) /\
  http_status (fst (create_novel novel st)) = 500.
Proof. split; reflexivity. Qed.

(** With an index of at least 1 the chapter is validated, gets the path's
    novel_id, is inserted, and the new id is returned. *)
Lemma create_chapter_inserts st novel_id chapter :
  1 <= ChapterCreate.index chapter < 2 ^ 63 ->
  create_chapter novel_id chapter st
  = (Ok (RDoc {[ "id" := VStr (str_ObjectId (ObjectId_new (collection st "chapter"))) ]}),
     inserted "chapter"
       (model_dump {| Chapter.novel_id := novel_id;
                      Chapter.index := ChapterCreate.index chapter;
                      Chapter.title := ChapterCreate.title chapter;
                      Chapter.content := ChapterCreate.content chapter |}) st).
Proof.
  intros [Hi Hlt]. unfold create_chapter, Chapter.new, bind, lift.
  apply Z.leb_le in Hi. rewrite Hi.
  rewrite create_document_run; [done|].
  rewrite bson_ok_Chapter. cbn [bson_value_ok Chapter.index].
  apply andb_true_iff. split; [apply Z.leb_le; lia|by apply Z.ltb_lt].
Qed.

(** An index beyond eight bytes passes both models and is refused by the
    driver's encoder: the insertion is attempted, nothing is stored, and the
    answer is 500. *)
Lemma create_chapter_overflow st novel_id chapter :
  2 ^ 63 <= ChapterCreate.index chapter ->
  create_chapter novel_id chapter st
  = (Raise (OverflowError "MongoDB can only handle up to 8-byte ints"),
     logged (InsertOne "chapter") st).
Proof.
  intros Hge. unfold create_chapter, Chapter.new, bind, lift.
  assert (Hi : (1 <=? ChapterCreate.index chapter) = true) by (apply Z.leb_le; lia).
  rewrite Hi.
  rewrite create_document_overflow; [done|].
  rewrite bson_ok_Chapter. cbn [bson_value_ok Chapter.index].
  apply andb_false_iff. right. by apply Z.ltb_ge.
Qed.

(** C5: a payload with index below 1 passes the request model, which puts
    no bound on index, and fails in the Chapter schema inside the handler:
    nothing is inserted and no database call is made, but the exception is
    not a request validation error and the answer is 500, not 422. *)
Theorem create_chapter_index_below_one (st : db) (novel_id : string)
    (chapter : ChapterCreate.t) :
  ChapterCreate.index chapter < 1 ->
  create_chapter novel_id chapter st
  = (Raise (ValidationError "index" "greater_than_equal"), st) /\
  http_status (fst (create_chapter novel_id chapter st)) = 500.
Proof.
  intros Hi. unfold create_chapter, Chapter.new.
  apply Z.leb_gt in Hi. rewrite Hi. split; reflexivity.
Qed.

(** C8 (as amended): the Novel schema puts no constraint on the title
    beyond its being text, so a payload whose title is the empty string, and
    whose genres are given, is accepted: the answer is 200 with the new id,
    and one novel with the empty title is inserted. *)
Theorem create_novel_accepts_empty_title (st : db) (a d : string) (c : option string)
    (g : list string) :
  let novel := {| NovelCreate.title := ""; NovelCreate.author := a;
                  NovelCreate.description := d; NovelCreate.cover_url := c;
                  NovelCreate.genres := Some g |} in
  exists stored,
    create_novel novel st
    = (Ok (RDoc {[ "id" := VStr (str_ObjectId (ObjectId_new (collection st "novel"))) ]}),
       inserted "novel" stored st) /\
    http_status (fst (create_novel novel st)) = 200 /\
    collection (snd (create_novel novel st)) "novel"
    = collection st "novel"
      ++ [<["_id" := VOid (ObjectId_new (collection st "novel"))]> stored] /\
    stored !! "title" = Some (VStr "").
Proof.
  intros novel.
  exists (model_dump {| Novel.title := ""; Novel.author := a; Novel.description := d;
                        Novel.cover_url := c; Novel.genres := g |}).
  assert (Hrun : create_novel novel st
                 = (Ok (RDoc {[ "id" := VStr (str_ObjectId
                                                (ObjectId_new (collection st "novel"))) ]}),
                    inserted "novel"
                      (model_dump {| Novel.title := ""; Novel.author := a;
                                     Novel.description := d; Novel.cover_url := c;
                                     Novel.genres := g |}) st)) by apply create_novel_run.
  rewrite Hrun. simpl fst. simpl snd. clear Hrun.
  split; [done|]. split; [done|]. split.
  - by rewrite collection_inserted, decide_True.
  - unfold model_dump, Novel.dump. simpl. by simplify_map_eq.
Qed.

(* ===================================================================== *)
(** * Identifiers in the GET endpoints *)
(* ===================================================================== *)


Lemma get_progress_run str_other user_id novel_id st :
  get_progress str_other user_id novel_id st
  = (Ok (let d := head (selected (progress_key user_id novel_id)
                          (collection st "progress")) in
         if falsy d then RNull else returned (serialize str_other d)),
     logged (FindOne "progress") st).
Proof. reflexivity. Qed.




(* ===================================================================== *)
(** * Listing chapters *)
(* ===================================================================== *)

Lemma doc_le_index_le a b x y :
  a !! "index" = Some (VInt x) -> b !! "index" = Some (VInt y) ->
  doc_le "index" a b -> x <= y.
Proof.
  intros Ha Hb. unfold doc_le, doc_leb. rewrite Ha, Hb. simpl.
  unfold fin_leb. simpl. rewrite !Z.mul_1_r. apply Z.leb_le.
Qed.

Lemma Sorted_index_le l :
  Forall (fun d => exists z : Z, d !! "index" = Some (VInt z)) l ->
  Sorted (doc_le "index") l -> Sorted index_le l.
Proof.
  intros Hint Hs. induction Hs as [|a l Hl IH Hhd]; [constructor|].
  apply Forall_cons in Hint as [[x Hx] Hint].
  constructor; [by apply IH|].
  destruct Hhd as [|b l' Hab]; constructor.
  apply Forall_cons in Hint as [[y Hy] _].
  exists x, y. split; [done|]. split; [done|]. by eapply doc_le_index_le.
Qed.

Lemma index_le_trans a b c : index_le a b -> index_le b c -> index_le a c.
Proof.
  intros (x & y & Ha & Hb & Hxy) (y' & z & Hb' & Hc & Hyz).
  rewrite Hb in Hb'. inversion Hb'; subst y'.
  exists x, z. split; [done|]. split; [done|]. lia.
Qed.

Lemma index_le_serialize str_other a b :
  index_le a b -> index_le (serialize_dict str_other a) (serialize_dict str_other b).
Proof.
  intros (x & y & Ha & Hb & Hxy). exists x, y.
  rewrite !serialize_dict_lookup by done. by rewrite Ha, Hb.
Qed.

Lemma StronglySorted_serialize str_other l :
  StronglySorted index_le l ->
  StronglySorted index_le (serialize_dict str_other <$> l).
Proof.
  induction 1 as [|a l Hl IH Hall]; simpl; constructor; [done|].
  apply Forall_fmap. eapply Forall_impl; [exact Hall|].
  intros b Hab. by apply index_le_serialize.
Qed.

Lemma list_chapters_run str_other novel_id st :
  list_chapters str_other novel_id st
  = (Ok (RDocs (serialize_dict str_other
                  <$> sort "index" (selected [("novel_id", VStr novel_id)]
                                      (collection st "chapter")))),
     {| collections := collections st; calls := calls st ++ [Find "chapter"] |}).
Proof. reflexivity. Qed.

(** C6: over any stored Chapter records, [GET /api/novels/{novel_id}/chapters]
    returns, serialized, exactly the chapters whose novel_id is the one
    asked (each of them once, so two chapters sharing an index are both
    returned), in ascending order of index whatever the order they were
    stored in. *)
Theorem list_chapters_sorted (str_other : value -> string) (st : db) (novel_id : string) :
  Forall chapter_shaped (collection st "chapter") ->
  exists docs,
    fst (list_chapters str_other novel_id st)
    = Ok (RDocs (serialize_dict str_other <$> docs)) /\
    Permutation docs (selected [("novel_id", VStr novel_id)] (collection st "chapter")) /\
    (forall d, d ∈ collection st "chapter" ->
               (d ∈ docs <-> d !! "novel_id" = Some (VStr novel_id))) /\
    StronglySorted index_le (serialize_dict str_other <$> docs).
Proof.
  intros Hshape. rewrite list_chapters_run. simpl fst.
  set (sel := selected [("novel_id", VStr novel_id)] (collection st "chapter")).
  exists (sort "index" sel).
  pose proof (sort_perm "index" sel) as Hperm.
  split; [done|]. split; [exact Hperm|]. split.
  - intros d Hd. rewrite Hperm. unfold sel, selected.
    rewrite list_elem_of_filter.
    rewrite Forall_forall in Hshape. destruct (Hshape d Hd) as [[s Hs] _].
    unfold matches. simpl. rewrite Hs. simpl. rewrite andb_true_r, String.eqb_eq.
    split.
    + intros [-> _]. done.
    + intros Heq. inversion Heq. done.
  - apply StronglySorted_serialize, Sorted_StronglySorted; [exact index_le_trans|].
    apply Sorted_index_le; [|apply sort_Sorted].
    rewrite Hperm. unfold sel, selected.
    apply Forall_forall. intros d [_ Hd]%list_elem_of_filter.
    rewrite Forall_forall in Hshape. by destruct (Hshape d Hd) as [_ Hz].
Qed.

(* ===================================================================== *)
(** * Seeding the demo data *)
(* ===================================================================== *)

Lemma collection_logged c st name : collection (logged c st) name = collection st name.
Proof. reflexivity. Qed.

Lemma selected_all c : selected [] c = c.
Proof.
  induction c as [|d c IH]; [done|]. rewrite selected_cons. simpl. by rewrite IH.
Qed.

Lemma count_documents_run name st :
  count_documents name [] st
  = (Ok (Z.of_nat (length (collection st name))), logged (CountDocuments name) st).
Proof.
  unfold count_documents, bind, log_call, read_collection, ret. cbv beta iota.
  fold (logged (CountDocuments name) st). rewrite collection_logged.
  fold (selected [] (collection st name)). by rewrite selected_all.
Qed.

Lemma find_all_run name st :
  find name [] st = (Ok (collection st name), logged (Find name) st).
Proof.
  unfold find, bind, log_call, read_collection, ret. cbv beta iota.
  fold (logged (Find name) st). rewrite collection_logged.
  fold (selected [] (collection st name)). by rewrite selected_all.
Qed.

Lemma calls_inserted name d st : calls (inserted name d st) = calls st ++ [InsertOne name].
Proof. reflexivity. Qed.

Lemma calls_logged c st : calls (logged c st) = calls st ++ [c].
Proof. reflexivity. Qed.

(** The first run of the seed routine, on a database without novels. *)
Lemma seed_demo_data_seeds str_other st :
  collection st "novel" = [] ->
  exists n1 n2 c1 c2 c3 st',
    seed_demo_data str_other st
    = (Ok (RSeed "seeded" (serialize_dict str_other <$> [n1; n2])), st') /\
    collection st' "novel" = [n1; n2] /\
    collection st' "chapter" = collection st "chapter" ++ [c1; c2; c3] /\
    Forall chapter_shaped [c1; c2; c3] /\
    (forall name, name <> "novel" -> name <> "chapter" ->
                  collection st' name = collection st name) /\
    calls st' = calls st ++ [CountDocuments "novel"; InsertOne "novel"; InsertOne "novel";
                             InsertOne "chapter"; InsertOne "chapter"; InsertOne "chapter";
                             Find "novel"].
Proof.
  intros Hempty. unfold seed_demo_data.
  unfold bind at 1. rewrite count_documents_run, Hempty.
  change (0 <? Z.of_nat (length [])) with false. cbv beta iota.
  set (st0 := logged (CountDocuments "novel") st).
  unfold bind, lift. cbn [Novel.new].
  rewrite create_document_run by bson_taken. cbv beta iota.
  set (st1 := inserted "novel" _ st0).
  rewrite create_document_run by bson_taken. cbv beta iota.
  set (st2 := inserted "novel" _ st1).
  unfold Chapter.new. change (1 <=? 1) with true. change (1 <=? 2) with true.
  cbv beta iota.
  rewrite create_document_run by bson_taken. cbv beta iota.
  set (st3 := inserted "chapter" _ st2).
  rewrite create_document_run by bson_taken. cbv beta iota.
  set (st4 := inserted "chapter" _ st3).
  rewrite create_document_run by bson_taken. cbv beta iota.
  set (st5 := inserted "chapter" _ st4).
  rewrite find_all_run. cbv beta iota. unfold ret.
  assert (Hn1 : exists n1, collection st1 "novel" = [n1]).
  { subst st1. rewrite collection_inserted, decide_True by done.
    subst st0. rewrite collection_logged, Hempty. by eexists. }
  destruct Hn1 as [n1 Hn1].
  assert (Hn2 : exists n2, collection st2 "novel" = [n1; n2]).
  { subst st2. rewrite collection_inserted, decide_True by done.
    rewrite Hn1. by eexists. }
  destruct Hn2 as [n2 Hn2].
  assert (Hn5 : collection st5 "novel" = [n1; n2]).
  { rewrite <- Hn2. subst st5 st4 st3.
    by rewrite !collection_inserted, !decide_False by done. }
  assert (Hc2 : collection st2 "chapter" = collection st "chapter").
  { subst st2 st1 st0. by rewrite !collection_inserted, !decide_False by done. }
  assert (Hc5 : exists c1 c2 c3,
             collection st5 "chapter" = collection st "chapter" ++ [c1; c2; c3] /\
             Forall chapter_shaped [c1; c2; c3]).
  { subst st5. rewrite collection_inserted, decide_True by done.
    subst st4. rewrite collection_inserted, decide_True by done.
    subst st3. rewrite collection_inserted, decide_True by done.
    rewrite Hc2, <- !app_assoc. simpl. eexists _, _, _. split; [reflexivity|].
    repeat constructor; eexists; unfold model_dump, Chapter.dump; by simplify_map_eq. }
  destruct Hc5 as (c1 & c2 & c3 & Hc5 & Hshape).
  exists n1, n2, c1, c2, c3, (logged (Find "novel") st5).
  split; [by rewrite Hn5|].
  split; [exact Hn5|]. split; [exact Hc5|]. split; [exact Hshape|]. split.
  - intros name Hnovel Hchapter. rewrite collection_logged.
    subst st5 st4 st3 st2 st1 st0. by rewrite !collection_inserted, !decide_False by done.
  - subst st5 st4 st3 st2 st1 st0. rewrite calls_logged, !calls_inserted, calls_logged.
    by rewrite <- !app_assoc.
Qed.

(** A run of the seed routine on a database that has novels already. *)
Lemma seed_demo_data_exists str_other st :
  collection st "novel" <> [] ->
  seed_demo_data str_other st
  = (Ok (RSeed "exists" (serialize_dict str_other <$> take 5 (collection st "novel"))),
     logged (Find "novel") (logged (CountDocuments "novel") st)).
Proof.
  intros Hne. unfold seed_demo_data.
  unfold bind at 1. rewrite count_documents_run.
  assert (Hpos : (0 <? Z.of_nat (length (collection st "novel"))) = true).
  { apply Z.ltb_lt. destruct (collection st "novel"); [done|simpl; lia]. }
  rewrite Hpos. unfold bind. rewrite find_all_run. reflexivity.
Qed.

(** C7: on a database without novels, [POST /api/seed] inserts exactly two
    novels and three chapters (and touches no other collection) and returns
    status seeded with those two novels; a second [POST /api/seed] returns
    status exists with the same two novels, at most five, and leaves every
    collection as it was. *)
Theorem seed_demo_data_twice (str_other : value -> string) (st : db) :
  collection st "novel" = [] ->
  let first := seed_demo_data str_other st in
  let second := seed_demo_data str_other (snd first) in
  exists novels n1 n2 c1 c2 c3,
    fst first = Ok (RSeed "seeded" novels) /\
    novels = serialize_dict str_other <$> [n1; n2] /\
    collection (snd first) "novel" = [n1; n2] /\
    collection (snd first) "chapter" = collection st "chapter" ++ [c1; c2; c3] /\
    (forall name, name <> "novel" -> name <> "chapter" ->
                  collection (snd first) name = collection st name) /\
    fst second = Ok (RSeed "exists" novels) /\
    (length novels <= 5)%nat /\
    collections (snd second) = collections (snd first).
Proof.
  intros Hempty first second.
  destruct (seed_demo_data_seeds str_other st Hempty)
    as (n1 & n2 & c1 & c2 & c3 & st' & Hrun & Hnovel & Hchapter & _ & Hother & _).
  assert (Hsecond : second = seed_demo_data str_other st').
  { unfold second, first. by rewrite Hrun. }
  rewrite seed_demo_data_exists in Hsecond by (by rewrite Hnovel).
  rewrite Hnovel in Hsecond.
  exists (serialize_dict str_other <$> [n1; n2]), n1, n2, c1, c2, c3.
  unfold first. rewrite Hsecond, Hrun. simpl fst. simpl snd.
  repeat split; try done. simpl. lia.
Qed.

(** ** Every chapter the API stores is Chapter-shaped *)

Lemma preserves_update_one_upsert name name' q fs :
  name' <> name -> preserves name (update_one_upsert name' q fs).
Proof.
  intros Hne st.
  destruct (update_one_upsert_run name' q fs st) as (c' & d0 & -> & _).
  simpl. rewrite collection_write. by case_decide.
Qed.

Lemma preserves_chapter_other str_other r :
  (forall novel_id chapter, r <> CreateChapter novel_id chapter) -> r <> SeedDemoData ->
  preserves "chapter" (handle str_other r).
Proof.
  intros Hc Hs. destruct r; simpl;
    [unfold list_novels|unfold create_novel|unfold get_novel|unfold list_chapters
    |by destruct (Hc novel_id chapter)|unfold get_chapter|unfold get_progress
    |unfold upsert_progress|done];
    auto 30 using preserves_update_one_upsert with preserves.
Qed.

Lemma reachable_chapter_shaped str_other st :
  reachable str_other st -> Forall chapter_shaped (collection st "chapter").
Proof.
  induction 1 as [|st r _ IH].
  - unfold collection. simpl. rewrite lookup_empty. constructor.
  - destruct r;
      try (rewrite preserves_chapter_other by done; exact IH).
    + simpl. destruct (Z_lt_le_dec (ChapterCreate.index chapter) 1) as [Hlow|Hok].
      * unfold create_chapter, Chapter.new. apply Z.leb_gt in Hlow. by rewrite Hlow.
      * destruct (Z_lt_le_dec (ChapterCreate.index chapter) (2 ^ 63)) as [Hfit|Hbig];
          [|by rewrite create_chapter_overflow].
        rewrite create_chapter_inserts by done. simpl snd.
        rewrite collection_inserted, decide_True by done.
        apply Forall_app. split; [exact IH|].
        repeat constructor; eexists; unfold model_dump, Chapter.dump; by simplify_map_eq.
    + simpl. destruct (collection st "novel") as [|x l] eqn:Hnovel.
      * destruct (seed_demo_data_seeds str_other st Hnovel)
          as (n1 & n2 & c1 & c2 & c3 & st' & Hrun & _ & Hchapter & Hshape & _).
        rewrite Hrun. simpl snd. rewrite Hchapter. apply Forall_app. by split.
      * rewrite seed_demo_data_exists by (by rewrite Hnovel). exact IH.
Qed.

(* ===================================================================== *)
(** * [serialize] and its argument *)
(* ===================================================================== *)

Lemma foldl_convert_item_lookup (items : list (string * value)) : forall (m : doc) k,
  NoDup items.*1 ->
  (forall k' v, (k', v) ∈ items -> m !! k' = Some v) ->
  foldl convert_item m items !! k
  = if decide (k ∈ items.*1) then stringify <$> (m !! k) else m !! k.
Proof.
  induction items as [|[k0 v0] items IH]; intros m k Hnd Hin.
  - simpl. done.
  - rewrite fmap_cons in Hnd |- *. cbn [foldl fst] in Hnd |- *.
    apply NoDup_cons in Hnd as [Hk0 Hnd].
    assert (Hm0 : m !! k0 = Some v0) by (apply Hin; constructor).
    assert (Hother : forall k', k' <> k0 -> convert_item m (k0, v0) !! k' = m !! k').
    { intros k' Hne. unfold convert_item. simpl.
      destruct v0; try done. by rewrite lookup_insert_ne. }
    assert (Hself : convert_item m (k0, v0) !! k0 = Some (stringify v0)).
    { unfold convert_item. simpl. destruct v0; try done. by rewrite lookup_insert_eq. }
    rewrite IH; [|done|].
    + destruct (decide (k = k0)) as [->|Hne].
      * rewrite decide_False by done. rewrite decide_True by constructor.
        by rewrite Hself, Hm0.
      * rewrite Hother by done.
        case_decide as Hk.
        -- rewrite decide_True; [done|]. by constructor.
        -- rewrite decide_False; [done|].
           intros [?|?]%elem_of_cons; done.
    + intros k' v Hkv. rewrite Hother; [apply Hin; by constructor|].
      intros ->. apply Hk0. apply list_elem_of_fmap. by exists (k0, v).
Qed.

(** The loop over the items amounts to converting every value. *)
Lemma foldl_convert_item_map_to_list (m : doc) :
  foldl convert_item m (map_to_list m) = stringify <$> m.
Proof.
  apply map_eq. intros k.
  rewrite foldl_convert_item_lookup.
  - rewrite lookup_fmap. case_decide as Hk; [done|].
    destruct (m !! k) as [v|] eqn:E; [|done].
    exfalso. apply Hk. apply list_elem_of_fmap. exists (k, v).
    split; [done|]. by apply elem_of_map_to_list.
  - apply NoDup_fst_map_to_list.
  - intros k' v. apply elem_of_map_to_list.
Qed.

Lemma convert_items_lookup out items : forall (h : Heap.heap) (m : doc),
  h !! out = Some m ->
  Heap.convert_items out items h !! out = Some (foldl convert_item m items) /\
  (forall l, l <> out -> Heap.convert_items out items h !! l = h !! l).
Proof.
  unfold Heap.convert_items.
  induction items as [|[k v] items IH]; intros h m Hm; simpl; [done|].
  assert (Hstep : (match v with
                   | VOid o => Heap.setitem out k (VStr (str_ObjectId o)) h
                   | _ => h
                   end) !! out = Some (convert_item m (k, v)) /\
                  forall l, l <> out ->
                    (match v with
                     | VOid o => Heap.setitem out k (VStr (str_ObjectId o)) h
                     | _ => h
                     end) !! l = h !! l).
  { unfold convert_item, Heap.setitem. simpl. destruct v; try done.
    split; [by rewrite lookup_alter_eq, Hm|].
    intros l Hl. by rewrite lookup_alter_ne. }
  destruct Hstep as [Hout Hrest].
  destruct (IH _ _ Hout) as [IH1 IH2].
  split; [exact IH1|]. intros l Hl. by rewrite IH2, Hrest.
Qed.

(** C10 (as amended): [serialize] never modifies its argument, nor any
    other dictionary that exists when it is called, and what it returns
    holds the serialized fields; for a non-empty document the result is a
    new dictionary, while an empty document is returned as it is, the same
    object. *)
Theorem serialize_leaves_argument (str_other : value -> string) (h : Heap.heap)
    (l : Heap.loc) (d : doc) :
  h !! l = Some d ->
  exists r h',
    Heap.serialize str_other (Some l) h = (Some r, h') /\
    h' !! l = Some d /\
    (forall l', l' ∈ dom h -> h' !! l' = h !! l') /\
    h' !! r = Some (serialize_dict str_other d) /\
    (d <> ∅ -> r ∉ dom h) /\
    (d = ∅ -> r = l /\ h' = h).
Proof.
  intros Hl. unfold Heap.serialize. rewrite Hl.
  unfold serialize_dict, falsy. case_bool_decide as Hd.
  - exists l, h. repeat split; try done.
  - set (out := fresh (dom h)).
    assert (Hfresh : out ∉ dom h) by apply is_fresh.
    set (d' := match d !! "_id" with
               | Some v => <["id" := VStr (py_str str_other v)]> (delete "_id" d)
               | None => d
               end).
    set (h2 := match d !! "_id" with
               | Some v => Heap.setitem out "id" (VStr (py_str str_other v))
                             (Heap.pop out "_id" (<[out := d]> h))
               | None => <[out := d]> h
               end).
    assert (Hh2 : h2 !! out = Some d' /\ forall l', l' <> out -> h2 !! l' = h !! l').
    { unfold h2, d', Heap.setitem, Heap.pop. destruct (d !! "_id") as [v|].
      - split.
        + by rewrite !lookup_alter_eq, lookup_insert_eq.
        + intros l' Hne. by rewrite !lookup_alter_ne, lookup_insert_ne.
      - split; [by rewrite lookup_insert_eq|].
        intros l' Hne. by rewrite lookup_insert_ne. }
    destruct Hh2 as [Hout Hrest]. rewrite Hout. simpl default.
    destruct (convert_items_lookup out (map_to_list d') h2 d' Hout) as [Hres Hframe].
    rewrite foldl_convert_item_map_to_list in Hres.
    assert (Hold : forall l', l' ∈ dom h ->
                     Heap.convert_items out (map_to_list d') h2 !! l' = h !! l').
    { intros l' Hl'. assert (l' <> out) by (intros ->; done).
      by rewrite Hframe, Hrest. }
    eexists out, _. split; [reflexivity|].
    split; [rewrite Hold; [done|by apply elem_of_dom]|].
    split; [exact Hold|]. split; [exact Hres|]. split; done.
Qed.

(* ===================================================================== *)
(** * The properties at concrete inputs *)
(* ===================================================================== *)

Example str_ObjectId_255 : str_ObjectId 255%N = "0000000000000000000000ff".
Proof. reflexivity. Qed.

Example ObjectId_of_str_upper_case :
  ObjectId_of_str "0123456789ABCDEF01234567" = ObjectId_of_str "0123456789abcdef01234567".
Proof. reflexivity. Qed.

Example ObjectId_of_str_short : ObjectId_of_str "0123" = None.
Proof. reflexivity. Qed.

(** Whitespace before a pair of digits is skipped: the text is accepted and
    gives the eight bytes it spells, whose own text has 16 digits.  Between
    the two digits of a pair it is an error. *)
Example ObjectId_of_str_spaced :
  String.length example_spaced_id = 24%nat /\
  fromhex example_spaced_id = Some [1; 35; 69; 103; 137; 171; 205; 239]%N /\
  ObjectId_of_str example_spaced_id = Some (9 * 2 ^ 96 + 81985529216486895)%N /\
  str_ObjectId (9 * 2 ^ 96 + 81985529216486895)%N = "0123456789abcdef" /\
  ObjectId_of_str "0 123456789abcdef0123456" = None.
Proof. repeat split; reflexivity. Qed.

(** The chapters of n1 come back by index, the two of index 1 in the order
    they were stored, each with its id as text. *)
Example list_chapters_example :
  fst (list_chapters str_unspecified "n1" example_chapters_db)
  = Ok (RDocs (serialize_dict str_unspecified
                 <$> [example_chapter 2%N "n1" 1; example_chapter 4%N "n1" 1;
                      example_chapter 1%N "n1" 2])).
Proof. vm_compute. reflexivity. Qed.

Example serialize_dict_example :
  serialize_dict str_unspecified (example_chapter 10%N "n1" 3)
  = {[ "id" := VStr "00000000000000000000000a"; "novel_id" := VStr "n1";
       "index" := VInt 3; "title" := VStr "t"; "content" := VStr "c" ]}.
Proof. vm_compute. reflexivity. Qed.

Example get_progress_none :
  fst (get_progress str_unspecified "u1" "n1" empty_db) = Ok RNull.
Proof. reflexivity. Qed.

Example upsert_then_get_progress :
  fst (get_progress str_unspecified "u1" "n1"
         (upsert_all str_unspecified example_upserts empty_db))
  = Ok (RDoc {[ "id" := VStr "000000000000000000000001"; "user_id" := VStr "u1";
                "novel_id" := VStr "n1"; "chapter_id" := VStr "c2";
                "position" := VFloat 0.75%float ]}).
Proof. vm_compute. reflexivity. Qed.

(** The failing input of C2, run on an empty database: answered 200, and
    the record read back has the position -0.01. *)
Example upsert_progress_out_of_range_example :
  let p := {| ProgressUpsert.user_id := "u1"; ProgressUpsert.novel_id := "n1";
              ProgressUpsert.chapter_id := "c1"; ProgressUpsert.position := (-0.01)%float |} in
  http_status (fst (upsert_progress str_unspecified p empty_db)) = 200 /\
  fst (get_progress str_unspecified "u1" "n1" (snd (upsert_progress str_unspecified p empty_db)))
  = Ok (RDoc {[ "id" := VStr "000000000000000000000001"; "user_id" := VStr "u1";
                "novel_id" := VStr "n1"; "chapter_id" := VStr "c1";
                "position" := VFloat (-0.01)%float ]}).
Proof. split; vm_compute; reflexivity. Qed.

(** A position that JSON cannot carry back is stored all the same, and the
    answer is 500. *)
Example upsert_progress_infinite_example :
  let p := {| ProgressUpsert.user_id := "u1"; ProgressUpsert.novel_id := "n1";
              ProgressUpsert.chapter_id := "c1"; ProgressUpsert.position := infinity |} in
  http_status (fst (upsert_progress str_unspecified p empty_db)) = 500 /\
  length (collection (snd (upsert_progress str_unspecified p empty_db)) "progress") = 1%nat.
Proof. split; vm_compute; reflexivity. Qed.

Example seed_demo_data_example :
  exists n1 n2,
    fst (seed_demo_data str_unspecified empty_db) = Ok (RSeed "seeded" [n1; n2]) /\
    n1 !! "id" = Some (VStr "000000000000000000000001") /\
    n1 !! "title" = Some (VStr "Neon Skies of Andromeda") /\
    n2 !! "id" = Some (VStr "000000000000000000000002") /\
    n2 !! "genres" = Some (VList ["Speculative"; "Time"; "Mystery"]).
Proof. eexists _, _. split; [reflexivity|]. repeat split; vm_compute; reflexivity. Qed.

Lemma upsert_progress_single_record_witness :
  reachable str_unspecified empty_db /\
  Forall (fun p => ProgressUpsert.user_id p = "u1" /\ ProgressUpsert.novel_id p = "n1")
    example_upserts /\
  (Forall2 (fun p out => exists d,
              fst out = Ok (RDoc (serialize_dict str_unspecified d)) /\
              selected (progress_key "u1" "n1") (collection (snd out) "progress") = [d] /\
              holds_payload p d)
     example_upserts (upsert_trace str_unspecified example_upserts empty_db) /\
   (forall p, last example_upserts = Some p ->
      exists d,
        selected (progress_key "u1" "n1")
          (collection (upsert_all str_unspecified example_upserts empty_db) "progress") = [d] /\
        d !! "position" = Some (VFloat (ProgressUpsert.position p)))).
Proof.
  assert (Hreach : reachable str_unspecified empty_db) by constructor.
  assert (Hps : Forall (fun p => ProgressUpsert.user_id p = "u1"
                                 /\ ProgressUpsert.novel_id p = "n1") example_upserts)
    by (repeat constructor).
  split; [exact Hreach|]. split; [exact Hps|].
  exact (upsert_progress_single_record str_unspecified empty_db "u1" "n1"
           example_upserts Hreach Hps).
Defined.

Lemma create_chapter_index_below_one_witness :
  ChapterCreate.index example_low_chapter < 1 /\
  create_chapter "n1" example_low_chapter empty_db
  = (Raise (ValidationError "index" "greater_than_equal"), empty_db) /\
  http_status (fst (create_chapter "n1" example_low_chapter empty_db)) = 500.
Proof.
  assert (Hlow : ChapterCreate.index example_low_chapter < 1) by (simpl; lia).
  split; [exact Hlow|].
  exact (create_chapter_index_below_one empty_db "n1" example_low_chapter Hlow).
Defined.

Lemma example_chapters_shaped :
  Forall chapter_shaped (collection example_chapters_db "chapter").
Proof.
  change (collection example_chapters_db "chapter") with example_chapters.
  repeat constructor; eexists; reflexivity.
Qed.

Lemma list_chapters_sorted_witness :
  Forall chapter_shaped (collection example_chapters_db "chapter") /\
  exists docs,
    fst (list_chapters str_unspecified "n1" example_chapters_db)
    = Ok (RDocs (serialize_dict str_unspecified <$> docs)) /\
    Permutation docs (selected [("novel_id", VStr "n1")]
                        (collection example_chapters_db "chapter")) /\
    (forall d, d ∈ collection example_chapters_db "chapter" ->
               (d ∈ docs <-> d !! "novel_id" = Some (VStr "n1"))) /\
    StronglySorted index_le (serialize_dict str_unspecified <$> docs).
Proof.
  split; [exact example_chapters_shaped|].
  exact (list_chapters_sorted str_unspecified example_chapters_db "n1"
           example_chapters_shaped).
Defined.

Lemma seed_demo_data_twice_witness :
  collection empty_db "novel" = [] /\
  exists novels n1 n2 c1 c2 c3,
    fst (seed_demo_data str_unspecified empty_db) = Ok (RSeed "seeded" novels) /\
    novels = serialize_dict str_unspecified <$> [n1; n2] /\
    collection (snd (seed_demo_data str_unspecified empty_db)) "novel" = [n1; n2] /\
    collection (snd (seed_demo_data str_unspecified empty_db)) "chapter"
    = collection empty_db "chapter" ++ [c1; c2; c3] /\
    (forall name, name <> "novel" -> name <> "chapter" ->
       collection (snd (seed_demo_data str_unspecified empty_db)) name
       = collection empty_db name) /\
    fst (seed_demo_data str_unspecified (snd (seed_demo_data str_unspecified empty_db)))
    = Ok (RSeed "exists" novels) /\
    (length novels <= 5)%nat /\
    collections (snd (seed_demo_data str_unspecified
                        (snd (seed_demo_data str_unspecified empty_db))))
    = collections (snd (seed_demo_data str_unspecified empty_db)).
Proof.
  assert (Hempty : collection empty_db "novel" = []) by reflexivity.
  split; [exact Hempty|].
  exact (seed_demo_data_twice str_unspecified empty_db Hempty).
Defined.

Lemma serialize_leaves_argument_witness :
  example_heap !! 0%nat = Some ({[ "_id" := VOid 7%N ]} : doc) /\
  exists r h',
    Heap.serialize str_unspecified (Some 0%nat) example_heap = (Some r, h') /\
    h' !! 0%nat = Some ({[ "_id" := VOid 7%N ]} : doc) /\
    (forall l', l' ∈ dom example_heap -> h' !! l' = example_heap !! l') /\
    h' !! r = Some (serialize_dict str_unspecified {[ "_id" := VOid 7%N ]}) /\
    (({[ "_id" := VOid 7%N ]} : doc) <> ∅ -> r ∉ dom example_heap) /\
    (({[ "_id" := VOid 7%N ]} : doc) = ∅ -> r = 0%nat /\ h' = example_heap).
Proof.
  assert (Hl : example_heap !! 0%nat = Some ({[ "_id" := VOid 7%N ]} : doc)) by reflexivity.
  split; [exact Hl|].
  exact (serialize_leaves_argument str_unspecified example_heap 0%nat _ Hl).
Defined.



(** C8, as stated, fails: a novel with an empty title is not refused with
    422, and it is inserted. *)
Lemma create_novel_empty_title_counterexample :
  NovelCreate.title example_untitled_novel = "" /\
  http_status (fst (create_novel example_untitled_novel empty_db)) <> 422 /\
  length (collection (snd (create_novel example_untitled_novel empty_db)) "novel") = 1%nat /\
  collection empty_db "novel" = [].
Proof. repeat split; by vm_compute. Qed.

(** C10, as stated, fails on the empty document: what [serialize] returns
    is its argument, a dictionary that existed before the call. *)
Lemma serialize_empty_counterexample :
  example_empty_heap !! 0%nat = Some (∅ : doc) /\
  fst (Heap.serialize str_unspecified (Some 0%nat) example_empty_heap) = Some 0%nat /\
  ~ (exists r, fst (Heap.serialize str_unspecified (Some 0%nat) example_empty_heap) = Some r
               /\ r ∉ dom example_empty_heap).
Proof.
  split; [reflexivity|]. split; [reflexivity|].
  intros (r & Hr & Hfresh). simpl in Hr. inversion Hr; subst r.
  apply Hfresh. unfold example_empty_heap. rewrite dom_singleton_L. by apply elem_of_singleton.
Qed.

(* ===================================================================== *)
(** * More on the helpers: [serialize] and [oid] *)
(* ===================================================================== *)

Lemma stringify_idemp v : stringify (stringify v) = stringify v.
Proof. by destruct v. Qed.

Lemma serialize_dict_unfold str_other d :
  d <> ∅ ->
  serialize_dict str_other d
  = stringify <$> (match d !! "_id" with
                   | Some v => <["id" := VStr (py_str str_other v)]> (delete "_id" d)
                   | None => d
                   end).
Proof. intros Hd. unfold serialize_dict, falsy. by rewrite bool_decide_false. Qed.

Lemma serialize_dict_no__id str_other d : serialize_dict str_other d !! "_id" = None.
Proof.
  destruct (decide (d = ∅)) as [->|Hd]; [done|].
  rewrite serialize_dict_unfold by done. rewrite lookup_fmap.
  destruct (d !! "_id") as [v|] eqn:E.
  - by rewrite lookup_insert_ne, lookup_delete_eq.
  - by rewrite E.
Qed.

Lemma serialize_dict_no_ObjectId str_other d k o :
  serialize_dict str_other d !! k <> Some (VOid o).
Proof.
  destruct (decide (d = ∅)) as [->|Hd]; [done|].
  rewrite serialize_dict_unfold by done. rewrite lookup_fmap.
  destruct (_ !! k) as [[]|]; done.
Qed.

(** X1: [serialize] is idempotent: serializing a document that was
    serialized already changes nothing. *)
Theorem serialize_dict_idempotent (str_other : value -> string) (d : doc) :
  serialize_dict str_other (serialize_dict str_other d) = serialize_dict str_other d.
Proof.
  set (r := serialize_dict str_other d).
  destruct (decide (r = ∅)) as [Hr|Hr]; [by rewrite Hr|].
  rewrite (serialize_dict_unfold _ r) by done.
  unfold r at 1. rewrite serialize_dict_no__id. fold r.
  apply map_eq. intros k. rewrite lookup_fmap.
  destruct (r !! k) as [v|] eqn:E; [|done]. simpl. f_equal.
  destruct v; try done.
  by destruct (serialize_dict_no_ObjectId str_other d k o).
Qed.

(** X2: what [serialize] returns has no [_id] key and no value that is an
    [ObjectId]; every other field of the document that is not an [ObjectId]
    is returned unchanged. *)
Theorem serialize_dict_clears_ObjectIds (str_other : value -> string) (d : doc) :
  serialize_dict str_other d !! "_id" = None /\
  (forall k o, serialize_dict str_other d !! k <> Some (VOid o)) /\
  (forall k v, k <> "id" -> k <> "_id" -> d !! k = Some v -> (forall o, v <> VOid o) ->
               serialize_dict str_other d !! k = Some v) /\
  (forall k o, k <> "id" -> k <> "_id" -> d !! k = Some (VOid o) ->
               serialize_dict str_other d !! k = Some (VStr (str_ObjectId o))).
Proof.
  split; [apply serialize_dict_no__id|]. split; [intros; apply serialize_dict_no_ObjectId|].
  split.
  - intros k v Hid H_id Hk Hv. rewrite serialize_dict_lookup, Hk by done. simpl.
    destruct v; try done. by destruct (Hv o).
  - intros k o Hid H_id Hk. by rewrite serialize_dict_lookup, Hk.
Qed.

(** X3: on a document that has an [_id], [serialize] puts the text of the
    [_id] under the key [id], replacing whatever the document had there, so
    the keys returned are those of the document without [_id], and [id]. *)
Theorem serialize_dict_renames__id (str_other : value -> string) (d : doc) (v : value) :
  d !! "_id" = Some v ->
  serialize_dict str_other d !! "id" = Some (VStr (py_str str_other v)) /\
  dom (serialize_dict str_other d) = {["id"]} ∪ (dom d ∖ {["_id"]}).
Proof.
  intros Hv.
  assert (Hd : d <> ∅) by (intros ->; by rewrite lookup_empty in Hv).
  rewrite serialize_dict_unfold, Hv by done. split.
  - by rewrite lookup_fmap, lookup_insert_eq.
  - by rewrite dom_fmap_L, dom_insert_L, dom_delete_L.
Qed.

(** Without an [_id] the keys are kept as they are. *)
Lemma serialize_dict_dom_no__id str_other d :
  d !! "_id" = None -> dom (serialize_dict str_other d) = dom d.
Proof.
  intros Hv. destruct (decide (d = ∅)) as [->|Hd]; [done|].
  by rewrite serialize_dict_unfold, Hv, dom_fmap_L.
Qed.

Lemma length_str_ObjectId (o : ObjectId) :
  String.length (str_ObjectId o) = (2 * ObjectId_length o)%nat.
Proof. unfold str_ObjectId. rewrite length_hex_digits. simpl. lia. Qed.

Lemma ObjectId_length_full (o : ObjectId) : (o < 2 ^ 96)%N -> ObjectId_length o = 12%nat.
Proof. intros Ho. unfold ObjectId_length. apply N.ltb_lt in Ho. by rewrite Ho. Qed.

(** X4: an identifier [oid] accepts has at most twelve bytes, and its text
    has two digits for each.  When the text given holds no whitespace the
    identifier has twelve bytes: its canonical text (24 lower-case digits)
    is accepted in turn and names the same identifier, whatever the case of
    the digits that were given.  When the text given holds whitespace the
    identifier is shorter, and its own text, of fewer than 24 characters,
    is refused by [oid]. *)
Theorem oid_canonical_text (id_str : string) (o : ObjectId) :
  oid id_str = Ok o ->
  (ObjectId_length o <= 12)%nat /\
  String.length (str_ObjectId o) = (2 * ObjectId_length o)%nat /\
  (has_space id_str = false ->
     (o < 2 ^ 96)%N /\
     String.length (str_ObjectId o) = 24%nat /\
     oid (str_ObjectId o) = Ok o) /\
  (has_space id_str = true ->
     (2 ^ 96 <= o)%N /\
     (String.length (str_ObjectId o) < 24)%nat /\
     oid (str_ObjectId o) = Raise (HTTPException 400 "Invalid ID format")).
Proof.
  unfold oid at 1. destruct (ObjectId_of_str id_str) as [o'|] eqn:E; [|done].
  intros [= ->]. apply ObjectId_of_str_bytes in E as (bs & Hbs & Hlen & ->).
  apply (fromhex_bytes 24) in Hbs as (Hle & Hall & Hno & Hsp); [|lia].
  rewrite Hlen in Hle, Hno, Hsp.
  assert (Hfull : length bs = 12%nat ->
            (ObjectId_of_bytes bs < 2 ^ 96)%N /\
            String.length (str_ObjectId (ObjectId_of_bytes bs)) = 24%nat /\
            oid (str_ObjectId (ObjectId_of_bytes bs)) = Ok (ObjectId_of_bytes bs)).
  { intros H12. pose proof (ObjectId_of_bytes_full bs H12 Hall) as Hlt.
    split; [exact Hlt|]. split.
    - by rewrite length_str_ObjectId, ObjectId_length_full.
    - unfold oid. by rewrite ObjectId_of_str_str. }
  assert (Hshort : (length bs < 12)%nat ->
            (2 ^ 96 <= ObjectId_of_bytes bs)%N /\
            ObjectId_length (ObjectId_of_bytes bs) = length bs /\
            oid (str_ObjectId (ObjectId_of_bytes bs))
            = Raise (HTTPException 400 "Invalid ID format")).
  { intros Hlt. destruct (ObjectId_of_bytes_short bs Hlt Hall) as (Hge & Hk & _).
    split; [exact Hge|]. split; [exact Hk|].
    unfold oid, ObjectId_of_str. rewrite length_str_ObjectId, Hk.
    destruct (2 * length bs =? 24)%nat eqn:E; [apply Nat.eqb_eq in E; lia|done]. }
  split; [|split; [apply length_str_ObjectId|split]].
  - destruct (decide (length bs = 12%nat)) as [H12|Hne].
    + destruct (Hfull H12) as (Hlt & _). by rewrite ObjectId_length_full.
    + destruct Hshort as (_ & Hk & _); lia.
  - intros Hsp'. apply Hfull. specialize (Hno Hsp'). lia.
  - intros Hsp'. specialize (Hsp Hsp').
    destruct Hshort as (Hge & Hk & Hoid); [lia|].
    split; [exact Hge|]. split; [|exact Hoid].
    rewrite length_str_ObjectId, Hk. lia.
Qed.

(* ===================================================================== *)
(** * More on the GET endpoints *)
(* ===================================================================== *)

Lemma list_novels_run str_other st :
  list_novels str_other st
  = (Ok (RDocs (serialize_dict str_other <$> sort "title" (collection st "novel"))),
     logged (Find "novel") st).
Proof. unfold list_novels, bind. by rewrite find_all_run. Qed.

Lemma get_by_id_run (msg : string) str_other name id_str o st :
  ObjectId_of_str id_str = Some o ->
  (o' <- lift (oid id_str) ;;
   d <- find_one name [("_id", VOid o')] ;;
   if falsy d then raise (HTTPException 404 msg)
   else ret (returned (serialize str_other d)))%handler st
  = (let d := head (selected [("_id", VOid o)] (collection st name)) in
     if falsy d then Raise (HTTPException 404 msg)
     else Ok (returned (serialize str_other d)),
     logged (FindOne name) st).
Proof.
  intros Ho. unfold oid. rewrite Ho. unfold bind, lift. rewrite find_one_run.
  cbv zeta. by destruct (falsy _).
Qed.

(** X5: the GET endpoints write nothing: every collection is after the
    request what it was before, and at most one call was made on the
    database. *)
Theorem read_requests_write_nothing (str_other : value -> string) (r : request) (st : db) :
  is_read r = true ->
  collections (snd (handle str_other r st)) = collections st /\
  (calls (snd (handle str_other r st)) = calls st \/
   exists c, calls (snd (handle str_other r st)) = calls st ++ [c]).
Proof.
  intros Hr. destruct r; try discriminate; cbn [handle].
  - rewrite list_novels_run. split; [done|]. right. by eexists.
  - unfold get_novel. destruct (ObjectId_of_str novel_id) as [o|] eqn:E.
    + rewrite (get_by_id_run _ _ _ _ o) by done. split; [done|]. right. by eexists.
    + unfold oid, bind, lift. rewrite E. split; [done|]. by left.
  - rewrite list_chapters_run. split; [done|]. right. by eexists.
  - unfold get_chapter. destruct (ObjectId_of_str chapter_id) as [o|] eqn:E.
    + rewrite (get_by_id_run _ _ _ _ o) by done. split; [done|]. right. by eexists.
    + unfold oid, bind, lift. rewrite E. split; [done|]. by left.
  - rewrite get_progress_run. split; [done|]. right. by eexists.
Qed.

Lemma head_selected_id o c d :
  head (selected [("_id", VOid o)] c) = Some d -> d ∈ c /\ d !! "_id" = Some (VOid o).
Proof.
  intros Hd. apply head_Some_elem_of in Hd.
  apply list_elem_of_filter in Hd as [Hm Hin]. split; [done|].
  unfold matches in Hm. simpl in Hm. rewrite andb_true_r in Hm.
  destruct (d !! "_id") as [[]|]; try discriminate.
  by apply N.eqb_eq in Hm as ->.
Qed.

Lemma get_by_id_found (msg : string) str_other name id_str o st d :
  ObjectId_of_str id_str = Some o ->
  head (selected [("_id", VOid o)] (collection st name)) = Some d ->
  (o' <- lift (oid id_str) ;;
   d <- find_one name [("_id", VOid o')] ;;
   if falsy d then raise (HTTPException 404 msg)
   else ret (returned (serialize str_other d)))%handler st
  = (Ok (RDoc (serialize_dict str_other d)), logged (FindOne name) st) /\
  serialize_dict str_other d !! "id" = Some (VStr (str_ObjectId o)).
Proof.
  intros Ho Hd. rewrite (get_by_id_run _ _ _ _ o) by done. cbv zeta. rewrite Hd.
  destruct (head_selected_id _ _ _ Hd) as [_ Hid].
  assert (Hne : d <> ∅) by (intros ->; by rewrite lookup_empty in Hid).
  simpl. rewrite bool_decide_false by done. split; [done|].
  rewrite serialize_dict_unfold, Hid by done.
  by rewrite lookup_fmap, lookup_insert_eq.
Qed.

(** X6: [GET /api/novels/{id}] and [GET /api/chapters/{id}] with a
    well-formed identifier return the first record of the collection that
    has it as [_id], serialized, its [id] being the canonical text of the
    identifier. *)
Theorem get_novel_get_chapter_found (str_other : value -> string) (st : db)
    (id_str : string) (o : ObjectId) (d : doc) (name : string) :
  ObjectId_of_str id_str = Some o ->
  head (selected [("_id", VOid o)] (collection st name)) = Some d ->
  serialize_dict str_other d !! "id" = Some (VStr (str_ObjectId o)) /\
  (name = "novel" ->
   get_novel str_other id_str st
   = (Ok (RDoc (serialize_dict str_other d)), logged (FindOne "novel") st)) /\
  (name = "chapter" ->
   get_chapter str_other id_str st
   = (Ok (RDoc (serialize_dict str_other d)), logged (FindOne "chapter") st)).
Proof.
  intros Ho Hd.
  split; [exact (proj2 (get_by_id_found "" str_other name id_str o st d Ho Hd))|].
  split; intros ->.
  - unfold get_novel. exact (proj1 (get_by_id_found _ _ _ _ _ _ _ Ho Hd)).
  - unfold get_chapter. exact (proj1 (get_by_id_found _ _ _ _ _ _ _ Ho Hd)).
Qed.

(** X7: [GET /api/novels/{novel_id}/chapters] takes any text as novel
    identifier, well-formed or not, of a stored novel or not: it never
    raises, so it answers neither 400 nor 404, and it returns as many
    documents as there are chapters with that novel_id, none when there
    is none. *)
Theorem list_chapters_any_identifier (str_other : value -> string) (st : db)
    (novel_id : string) :
  exists l,
    list_chapters str_other novel_id st = (Ok (RDocs l), logged (Find "chapter") st) /\
    length l = length (selected [("novel_id", VStr novel_id)] (collection st "chapter")) /\
    http_status (fst (list_chapters str_other novel_id st)) <> 400 /\
    http_status (fst (list_chapters str_other novel_id st)) <> 404.
Proof.
  rewrite list_chapters_run. eexists. split; [reflexivity|]. split.
  - rewrite length_fmap. apply Permutation_length, sort_perm.
  - cbn [fst].
    match goal with |- http_status (Ok ?r) <> _ /\ _ =>
      destruct (http_status_Ok r) as [H|H]; rewrite H; split; discriminate end.
Qed.

(** ** Listing novels *)

Lemma ascii_compare_N a b : Ascii.compare a b = N.compare (N_of_ascii a) (N_of_ascii b).
Proof. reflexivity. Qed.

Lemma string_compare_trans_le s : forall t u,
  String.compare s t <> Gt -> String.compare t u <> Gt -> String.compare s u <> Gt.
Proof.
  induction s as [|a s IH]; intros [|b t] [|c u]; simpl; try done.
  rewrite !ascii_compare_N.
  destruct (N.compare_spec (N_of_ascii a) (N_of_ascii b)) as [Hab|Hab|Hab];
    destruct (N.compare_spec (N_of_ascii b) (N_of_ascii c)) as [Hbc|Hbc|Hbc];
    destruct (N.compare_spec (N_of_ascii a) (N_of_ascii c)) as [Hac|Hac|Hac];
    try done; try lia.
  apply IH.
Qed.

Lemma string_leb_trans s t u :
  String.leb s t = true -> String.leb t u = true -> String.leb s u = true.
Proof.
  unfold String.leb. intros Hst Htu.
  pose proof (string_compare_trans_le s t u) as H.
  destruct (String.compare s t), (String.compare t u), (String.compare s u);
    try done; exfalso; by apply H.
Qed.

Lemma title_le_trans a b c : title_le a b -> title_le b c -> title_le a c.
Proof.
  intros (s & t & Ha & Hb & Hst) (t' & u & Hb' & Hc & Htu).
  rewrite Hb in Hb'. inversion Hb'; subst t'.
  exists s, u. split; [done|]. split; [done|]. by eapply string_leb_trans.
Qed.

Lemma Sorted_title_le l :
  Forall novel_titled l -> Sorted (doc_le "title") l -> Sorted title_le l.
Proof.
  intros Ht Hs. induction Hs as [|a l Hl IH Hhd]; [constructor|].
  apply Forall_cons in Ht as [[s Hs] Ht].
  constructor; [by apply IH|].
  destruct Hhd as [|b l' Hab]; constructor.
  apply Forall_cons in Ht as [[t Ht'] _].
  exists s, t. split; [done|]. split; [done|].
  unfold doc_le, doc_leb in Hab. by rewrite Hs, Ht' in Hab.
Qed.

Lemma title_le_serialize str_other a b :
  title_le a b -> title_le (serialize_dict str_other a) (serialize_dict str_other b).
Proof.
  intros (s & t & Ha & Hb & Hst). exists s, t.
  rewrite !serialize_dict_lookup by done. by rewrite Ha, Hb.
Qed.

Lemma StronglySorted_title_serialize str_other l :
  StronglySorted title_le l ->
  StronglySorted title_le (serialize_dict str_other <$> l).
Proof.
  induction 1 as [|a l Hl IH Hall]; simpl; constructor; [done|].
  apply Forall_fmap. eapply Forall_impl; [exact Hall|].
  intros b Hab. by apply title_le_serialize.
Qed.

(** X8: over novels that have a text title, [GET /api/novels] returns
    every stored novel once, serialized, in ascending order of title (the
    order of the bytes of the text), whatever the order they were stored
    in. *)
Theorem list_novels_sorted (str_other : value -> string) (st : db) :
  Forall novel_titled (collection st "novel") ->
  exists docs,
    list_novels str_other st
    = (Ok (RDocs (serialize_dict str_other <$> docs)), logged (Find "novel") st) /\
    Permutation docs (collection st "novel") /\
    StronglySorted title_le (serialize_dict str_other <$> docs).
Proof.
  intros Ht. rewrite list_novels_run.
  exists (sort "title" (collection st "novel")).
  pose proof (sort_perm "title" (collection st "novel")) as Hperm.
  split; [done|]. split; [exact Hperm|].
  apply StronglySorted_title_serialize.
  apply Sorted_StronglySorted; [exact title_le_trans|].
  apply Sorted_title_le; [by rewrite Hperm|apply sort_Sorted].
Qed.

Lemma example_novels_titled : Forall novel_titled (collection example_novels_db "novel").
Proof.
  change (collection example_novels_db "novel")
    with [example_novel 1%N "Quantum"; example_novel 2%N "Atlas"; example_novel 3%N "Neon"].
  repeat constructor; eexists; reflexivity.
Qed.

Example list_novels_example :
  fst (list_novels str_unspecified example_novels_db)
  = Ok (RDocs (serialize_dict str_unspecified
                 <$> [example_novel 2%N "Atlas"; example_novel 3%N "Neon";
                      example_novel 1%N "Quantum"])).
Proof. vm_compute. reflexivity. Qed.

(* ===================================================================== *)
(** * More on progress *)
(* ===================================================================== *)

Lemma holds_payload_shaped p d : holds_payload p d -> progress_shaped d.
Proof. intros (Hu & Hn & _). by eexists _, _. Qed.

Lemma holds_payload_nonempty p d : holds_payload p d -> d <> ∅.
Proof. intros (Hu & _) ->. by rewrite lookup_empty in Hu. Qed.

Lemma upserted_shaped p q c c' d0 :
  Forall progress_shaped c -> upserted q (progress_fields p) c c' d0 ->
  Forall progress_shaped c'.
Proof.
  intros Hc Hup.
  pose proof (holds_payload_shaped _ _ (upserted_holds_payload _ _ _ _ _ Hup)) as Hd0.
  destruct Hup as [l1 d l2 -> -> _ _ _| _ -> _].
  - apply Forall_app in Hc as [Hl1 [_ Hl2]%Forall_cons].
    apply Forall_app. split; [done|]. by constructor.
  - apply Forall_app. split; [done|]. by constructor.
Qed.

Lemma reachable_progress_shaped str_other st :
  reachable str_other st -> Forall progress_shaped (collection st "progress").
Proof.
  induction 1 as [|st r _ IH].
  - unfold collection. simpl. rewrite lookup_empty. constructor.
  - destruct r; try (rewrite preserves_progress_other by done; exact IH).
    cbn [handle].
    destruct (upsert_progress_run str_other p st) as (c' & d0 & -> & Hup).
    simpl snd. rewrite collection_write, decide_True by done.
    by eapply upserted_shaped.
Qed.

Lemma matches_shaped_key u n d :
  progress_shaped d ->
  matches (progress_key u n) d = true ->
  d !! "user_id" = Some (VStr u) /\ d !! "novel_id" = Some (VStr n).
Proof.
  intros (u' & n' & Hu & Hn). unfold progress_key.
  rewrite matches_progress_key, Hu, Hn. simpl.
  intros [->%String.eqb_eq ->%String.eqb_eq]%andb_true_iff. done.
Qed.

(** An upsert for one pair leaves the records selected for another pair. *)
Lemma upserted_selected_other_eq p c c' d0 u n :
  Forall progress_shaped c ->
  upserted (progress_key (ProgressUpsert.user_id p) (ProgressUpsert.novel_id p))
    (progress_fields p) c c' d0 ->
  String.eqb u (ProgressUpsert.user_id p) && String.eqb n (ProgressUpsert.novel_id p) = false ->
  selected (progress_key u n) c' = selected (progress_key u n) c.
Proof.
  intros Hc Hup Hne.
  assert (Hm : matches (progress_key u n) d0 = false).
  { unfold progress_key. rewrite (matches_holds_payload p); [done|].
    by eapply upserted_holds_payload. }
  destruct Hup as [l1 d l2 -> -> _ Hd _| _ -> _].
  - apply Forall_app in Hc as [_ [Hshape _]%Forall_cons].
    destruct (matches_shaped_key _ _ _ Hshape Hd) as [Hu Hn].
    assert (Hm' : matches (progress_key u n) d = false).
    { unfold progress_key. by rewrite matches_progress_key, Hu, Hn. }
    by rewrite !selected_app, !selected_cons, Hm, Hm'.
  - by rewrite selected_app, selected_cons, Hm, app_nil_r.
Qed.

Lemma get_progress_found str_other u n st d :
  head (selected (progress_key u n) (collection st "progress")) = Some d -> d <> ∅ ->
  fst (get_progress str_other u n st) = Ok (RDoc (serialize_dict str_other d)).
Proof.
  intros Hd Hne. rewrite get_progress_run. cbn [fst]. cbv zeta. rewrite Hd.
  simpl. by rewrite bool_decide_false.
Qed.

(** X9: what [POST /api/progress] returns is what
    [GET /api/progress/{user_id}/{novel_id}] returns for the payload's pair
    right after it, on any database: the stored record, with the payload's
    values. *)
Theorem upsert_progress_read_back (str_other : value -> string) (p : ProgressUpsert.t)
    (st : db) :
  exists d,
    fst (upsert_progress str_other p st) = Ok (RDoc (serialize_dict str_other d)) /\
    fst (get_progress str_other (ProgressUpsert.user_id p) (ProgressUpsert.novel_id p)
           (snd (upsert_progress str_other p st)))
    = Ok (RDoc (serialize_dict str_other d)) /\
    holds_payload p (serialize_dict str_other d).
Proof.
  destruct (upsert_progress_stored str_other p st) as (d & Hfst & Hhead & Hp).
  exists d. split; [exact Hfst|]. split.
  - apply get_progress_found; [exact Hhead|by eapply holds_payload_nonempty].
  - by apply serialize_dict_holds_payload.
Qed.

(** X10: on a database the API has brought about, [POST /api/progress] for
    one pair does not change what [GET /api/progress] returns for any other
    pair. *)
Theorem upsert_progress_other_pair (str_other : value -> string) (p : ProgressUpsert.t)
    (st : db) (u n : string) :
  reachable str_other st ->
  (u, n) <> (ProgressUpsert.user_id p, ProgressUpsert.novel_id p) ->
  selected (progress_key u n) (collection (snd (upsert_progress str_other p st)) "progress")
  = selected (progress_key u n) (collection st "progress") /\
  fst (get_progress str_other u n (snd (upsert_progress str_other p st)))
  = fst (get_progress str_other u n st).
Proof.
  intros Hreach Hne.
  assert (Hneb : String.eqb u (ProgressUpsert.user_id p)
                 && String.eqb n (ProgressUpsert.novel_id p) = false).
  { apply not_true_is_false. intros [Hu%String.eqb_eq Hn%String.eqb_eq]%andb_true_iff.
    apply Hne. by rewrite Hu, Hn. }
  destruct (upsert_progress_run str_other p st) as (c' & d0 & Hrun & Hup).
  assert (Hsel : selected (progress_key u n)
                   (collection (snd (upsert_progress str_other p st)) "progress")
                 = selected (progress_key u n) (collection st "progress")).
  { rewrite Hrun. simpl snd. rewrite collection_write, decide_True by done.
    eapply upserted_selected_other_eq; [|exact Hup|exact Hneb].
    by eapply reachable_progress_shaped. }
  split; [exact Hsel|]. rewrite !get_progress_run. cbn [fst]. cbv zeta. by rewrite Hsel.
Qed.

Lemma apply_set_progress_fields_other p d k :
  k ∉ progress_keys -> apply_set (progress_fields p) d !! k = d !! k.
Proof.
  intros Hk. unfold progress_keys in Hk.
  rewrite !not_elem_of_cons in Hk. destruct Hk as (? & ? & ? & ? & _).
  unfold apply_set, progress_fields. simpl. by rewrite !lookup_insert_ne.
Qed.

(** X11: [POST /api/progress] changes one record and no other: when the
    pair has a record, the first one is updated in place, all its fields
    but the four of the payload (its [_id] among them) and all other records
    staying as they are; when it has none, one record is added after the
    others, under an [_id] that no record had. *)
Theorem upsert_progress_in_place (str_other : value -> string) (p : ProgressUpsert.t)
    (st : db) :
  let q := progress_key (ProgressUpsert.user_id p) (ProgressUpsert.novel_id p) in
  let c := collection st "progress" in
  let c' := collection (snd (upsert_progress str_other p st)) "progress" in
  match head (selected q c) with
  | Some d =>
      exists l1 l2 d0,
        c = l1 ++ d :: l2 /\ c' = l1 ++ d0 :: l2 /\ holds_payload p d0 /\
        (forall k, k ∉ progress_keys -> d0 !! k = d !! k)
  | None =>
      exists d0 o,
        c' = c ++ [d0] /\ holds_payload p d0 /\
        d0 !! "_id" = Some (VOid o) /\ selected [("_id", VOid o)] c = []
  end.
Proof.
  intros q c c'.
  destruct (upsert_progress_run str_other p st) as (c1 & d0 & Hrun & Hup).
  assert (Hc' : c' = c1).
  { unfold c'. rewrite Hrun. simpl snd. by rewrite collection_write, decide_True. }
  pose proof (upserted_holds_payload _ _ _ _ _ Hup) as Hp.
  fold q c in Hup. rewrite Hc'.
  destruct Hup as [l1 d l2 Hc -> Hl1 Hd Hd0| Hc -> Hd0].
  - rewrite Hc, selected_app, Hl1, selected_cons, Hd. simpl.
    exists l1, l2, d0. split; [done|]. split; [done|]. split; [done|].
    intros k Hk. rewrite Hd0. by apply apply_set_progress_fields_other.
  - rewrite Hc. simpl. exists d0, (ObjectId_new c).
    split; [done|]. split; [done|]. split.
    + rewrite Hd0. by rewrite lookup_insert_eq.
    + apply selected_ObjectId_new.
Qed.

(** ** Any sequence of requests *)

Lemma run_requests_snoc str_other rs r st :
  run_requests str_other (rs ++ [r]) st
  = snd (handle str_other r (run_requests str_other rs st)).
Proof. unfold run_requests. by rewrite foldl_app. Qed.

Lemma run_requests_reachable str_other rs :
  reachable str_other (run_requests str_other rs empty_db).
Proof.
  induction rs as [|r rs IH] using rev_ind; [constructor|].
  rewrite run_requests_snoc. by constructor.
Qed.

Lemma last_upsert_snoc u n rs r :
  last_upsert u n (rs ++ [r])
  = match r with
    | UpsertProgress p =>
        if String.eqb u (ProgressUpsert.user_id p) && String.eqb n (ProgressUpsert.novel_id p)
        then Some p else last_upsert u n rs
    | _ => last_upsert u n rs
    end.
Proof. unfold last_upsert. rewrite foldl_app. by destruct r. Qed.

(** X12: after any sequence of requests on an empty database, a pair
    (user_id, novel_id) has exactly one Progress record, holding the payload
    of the last [POST /api/progress] for that pair, if there was one, and no
    record otherwise; [GET /api/progress] returns that record, or [null]. *)
Theorem progress_after_requests (str_other : value -> string) (rs : list request)
    (u n : string) :
  let st := run_requests str_other rs empty_db in
  match last_upsert u n rs with
  | Some p =>
      exists d,
        selected (progress_key u n) (collection st "progress") = [d] /\
        holds_payload p d /\
        fst (get_progress str_other u n st) = Ok (RDoc (serialize_dict str_other d))
  | None =>
      selected (progress_key u n) (collection st "progress") = [] /\
      fst (get_progress str_other u n st) = Ok RNull
  end.
Proof.
  cbv zeta.
  assert (Hsel : match last_upsert u n rs with
                 | Some p =>
                     exists d,
                       selected (progress_key u n)
                         (collection (run_requests str_other rs empty_db) "progress") = [d] /\
                       holds_payload p d
                 | None =>
                     selected (progress_key u n)
                       (collection (run_requests str_other rs empty_db) "progress") = []
                 end).
  { induction rs as [|r rs IH] using rev_ind; [done|].
    rewrite run_requests_snoc, last_upsert_snoc.
    pose proof (run_requests_reachable str_other rs) as Hreach.
    set (st := run_requests str_other rs empty_db) in *.
    destruct r; try (rewrite preserves_progress_other by done; exact IH).
    cbn [handle].
    destruct (String.eqb u (ProgressUpsert.user_id p)
              && String.eqb n (ProgressUpsert.novel_id p)) eqn:E.
    - apply andb_true_iff in E as [->%String.eqb_eq ->%String.eqb_eq].
      destruct (upsert_progress_step str_other p st) as (d & _ & Hd & Hp);
        [by apply (reachable_progress_unique str_other)|].
      by exists d.
    - destruct (upsert_progress_run str_other p st) as (c' & d0 & -> & Hup).
      simpl snd. rewrite collection_write, decide_True by done.
      rewrite (upserted_selected_other_eq p _ _ _ _ _
                 (reachable_progress_shaped _ _ Hreach) Hup E).
      exact IH. }
  destruct (last_upsert u n rs) as [p|].
  - destruct Hsel as (d & Hd & Hp). exists d. split; [done|]. split; [done|].
    apply get_progress_found; [by rewrite Hd|by eapply holds_payload_nonempty].
  - split; [done|]. rewrite get_progress_run. cbn [fst]. cbv zeta. by rewrite Hsel.
Qed.

(* ===================================================================== *)
(** * More on creating and seeding *)
(* ===================================================================== *)

(** X13: when the novel collection is not empty, [POST /api/seed] inserts
    nothing, whatever the other collections hold: it returns status exists
    with the first five novels in stored order (all of them when there are
    fewer), serialized, and makes two read calls. *)
Theorem seed_demo_data_skips (str_other : value -> string) (st : db) :
  collection st "novel" <> [] ->
  exists novels,
    fst (seed_demo_data str_other st) = Ok (RSeed "exists" novels) /\
    novels = serialize_dict str_other <$> take 5 (collection st "novel") /\
    length novels = Nat.min 5 (length (collection st "novel")) /\
    collections (snd (seed_demo_data str_other st)) = collections st /\
    calls (snd (seed_demo_data str_other st))
    = calls st ++ [CountDocuments "novel"; Find "novel"].
Proof.
  intros Hne. rewrite seed_demo_data_exists by done. eexists. split; [reflexivity|].
  split; [reflexivity|]. split; [by rewrite length_fmap, length_take|].
  split; [reflexivity|]. simpl. by rewrite <- app_assoc.
Qed.

(** X14: with [create_document] as the specification describes it, a novel
    posted with its genres is stored once, after the novels there were, and
    [GET /api/novels/{id}] with the id returned reads it back with that id
    and the title, author, description, cover_url and genres of the
    payload. *)
Theorem create_novel_read_back (str_other : value -> string) (st : db)
    (novel : NovelCreate.t) (g : list string) :
  NovelCreate.genres novel = Some g ->
  (ObjectId_new (collection st "novel") < 16 ^ 24)%N ->
  exists id stored d,
    fst (create_novel novel st) = Ok (RDoc {[ "id" := VStr id ]}) /\
    collection (snd (create_novel novel st)) "novel" = collection st "novel" ++ [stored] /\
    fst (get_novel str_other id (snd (create_novel novel st))) = Ok (RDoc d) /\
    d = serialize_dict str_other stored /\
    d !! "id" = Some (VStr id) /\
    d !! "title" = Some (VStr (NovelCreate.title novel)) /\
    d !! "author" = Some (VStr (NovelCreate.author novel)) /\
    d !! "description" = Some (VStr (NovelCreate.description novel)) /\
    d !! "cover_url"
      = Some (match NovelCreate.cover_url novel with Some u => VStr u | None => VNone end) /\
    d !! "genres" = Some (VList g).
Proof.
  intros Hg Hlt. destruct novel as [t a de cu ge]. simpl in *. subst ge.
  set (o := ObjectId_new (collection st "novel")) in *.
  set (data := {| Novel.title := t; Novel.author := a; Novel.description := de;
                  Novel.cover_url := cu; Novel.genres := g |}).
  assert (Hrun : create_novel
                   {| NovelCreate.title := t; NovelCreate.author := a;
                      NovelCreate.description := de; NovelCreate.cover_url := cu;
                      NovelCreate.genres := Some g |} st
                 = (Ok (RDoc {[ "id" := VStr (str_ObjectId o) ]}),
                    inserted "novel" (model_dump data) st)) by apply create_novel_run.
  rewrite Hrun. simpl fst. simpl snd. clear Hrun.
  set (stored := <["_id" := VOid o]> (model_dump data)).
  assert (Hne : stored <> ∅) by apply insert_non_empty.
  exists (str_ObjectId o), stored, (serialize_dict str_other stored).
  split; [done|].
  split; [by rewrite collection_inserted, decide_True|].
  split.
  { unfold get_novel, oid. rewrite ObjectId_of_str_str by exact Hlt.
    unfold bind, lift.
    pose proof (find_one_inserted "novel" (model_dump data) st) as Hfind.
    fold o stored in Hfind.
    destruct (find_one "novel" [("_id", VOid o)] (inserted "novel" (model_dump data) st))
      as [r st'].
    simpl in Hfind. subst r. simpl. by rewrite bool_decide_false. }
  split; [done|]. split.
  { rewrite serialize_dict_unfold by done. unfold stored at 1.
    rewrite lookup_insert_eq, lookup_fmap, lookup_insert_eq. done. }
  rewrite !serialize_dict_lookup by done.
  unfold stored, model_dump, Novel.dump, data. simpl.
  repeat split; simplify_map_eq; try done.
  by destruct cu.
Qed.

(** X15: [POST /api/novels/{novel_id}/chapters] does not look the novel
    up: for any text as novel_id the novel collection is left as it was.
    With an index of at least 1 that fits in eight bytes, and
    [create_document] as the specification describes it, the only database
    call is the insertion, the chapter stored carries that novel_id, and
    [GET /api/novels/{novel_id}/chapters] lists it from then on.  An index
    of [2^63] or more passes both models and is refused by the driver's
    encoder: the answer is 500 and no chapter is stored. *)
Theorem create_chapter_unchecked_novel (str_other : value -> string) (st : db)
    (novel_id : string) (chapter : ChapterCreate.t) :
  collection (snd (create_chapter novel_id chapter st)) "novel" = collection st "novel" /\
  (1 <= ChapterCreate.index chapter < 2 ^ 63 ->
   exists id stored docs,
     fst (create_chapter novel_id chapter st) = Ok (RDoc {[ "id" := VStr id ]}) /\
     calls (snd (create_chapter novel_id chapter st)) = calls st ++ [InsertOne "chapter"] /\
     collection (snd (create_chapter novel_id chapter st)) "chapter"
     = collection st "chapter" ++ [stored] /\
     stored !! "novel_id" = Some (VStr novel_id) /\
     stored !! "index" = Some (VInt (ChapterCreate.index chapter)) /\
     fst (list_chapters str_other novel_id (snd (create_chapter novel_id chapter st)))
     = Ok (RDocs (serialize_dict str_other <$> docs)) /\
     stored ∈ docs) /\
  (2 ^ 63 <= ChapterCreate.index chapter ->
   fst (create_chapter novel_id chapter st)
   = Raise (OverflowError "MongoDB can only handle up to 8-byte ints") /\
   http_status (fst (create_chapter novel_id chapter st)) = 500 /\
   calls (snd (create_chapter novel_id chapter st)) = calls st ++ [InsertOne "chapter"] /\
   collection (snd (create_chapter novel_id chapter st)) "chapter"
   = collection st "chapter").
Proof.
  split; [|split].
  - assert (Hp : preserves "novel" (create_chapter novel_id chapter)).
    { unfold create_chapter. auto 10 with preserves. }
    apply Hp.
  - intros Hi. rewrite create_chapter_inserts by done. cbn [fst snd].
    set (data := {| Chapter.novel_id := novel_id;
                    Chapter.index := ChapterCreate.index chapter;
                    Chapter.title := ChapterCreate.title chapter;
                    Chapter.content := ChapterCreate.content chapter |}).
    set (stored := <["_id" := VOid (ObjectId_new (collection st "chapter"))]>
                     (model_dump data)).
    assert (Hnid : stored !! "novel_id" = Some (VStr novel_id)).
    { unfold stored, model_dump, Chapter.dump, data. simpl. by simplify_map_eq. }
    assert (Hidx : stored !! "index" = Some (VInt (ChapterCreate.index chapter))).
    { unfold stored, model_dump, Chapter.dump, data. simpl. by simplify_map_eq. }
    eexists _, stored, _. split; [reflexivity|]. split; [reflexivity|].
    split; [by rewrite collection_inserted, decide_True|].
    split; [exact Hnid|]. split; [exact Hidx|].
    rewrite list_chapters_run. cbn [fst]. split; [reflexivity|].
    rewrite sort_perm. rewrite collection_inserted, decide_True by done. fold stored.
    apply list_elem_of_filter. split.
    + unfold matches. simpl. rewrite Hnid. simpl. by rewrite String.eqb_refl.
    + apply elem_of_app. right. by constructor.
  - intros Hbig. rewrite create_chapter_overflow by done. cbn [fst snd].
    repeat split.
Qed.

(** ** The seeded records and their links *)

Lemma seed_demo_data_run_empty str_other st :
  collection st "novel" = [] ->
  exists (N1 N2 : Novel.t) (C1 C2 C3 : Chapter.t),
    let st0 := logged (CountDocuments "novel") st in
    let st1 := inserted "novel" (model_dump N1) st0 in
    let st2 := inserted "novel" (model_dump N2) st1 in
    let st5 := inserted "chapter" (model_dump C3)
                 (inserted "chapter" (model_dump C2)
                    (inserted "chapter" (model_dump C1) st2)) in
    Chapter.novel_id C1 = str_ObjectId (ObjectId_new (collection st0 "novel")) /\
    Chapter.novel_id C2 = str_ObjectId (ObjectId_new (collection st0 "novel")) /\
    Chapter.novel_id C3 = str_ObjectId (ObjectId_new (collection st1 "novel")) /\
    Chapter.index C1 = 1 /\ Chapter.index C2 = 2 /\ Chapter.index C3 = 1 /\
    seed_demo_data str_other st
    = (Ok (RSeed "seeded" (serialize_dict str_other <$> collection st5 "novel")),
       logged (Find "novel") st5).
Proof.
  intros Hempty. unfold seed_demo_data.
  unfold bind at 1. rewrite count_documents_run, Hempty.
  change (0 <? Z.of_nat (length [])) with false. cbv beta iota.
  unfold bind, lift. cbn [Novel.new].
  rewrite create_document_run by bson_taken. cbv beta iota.
  rewrite create_document_run by bson_taken. cbv beta iota.
  unfold Chapter.new. change (1 <=? 1) with true. change (1 <=? 2) with true.
  cbv beta iota.
  rewrite create_document_run by bson_taken. cbv beta iota.
  rewrite create_document_run by bson_taken. cbv beta iota.
  rewrite create_document_run by bson_taken. cbv beta iota.
  rewrite find_all_run. cbv beta iota. unfold ret.
  eexists _, _, _, _, _. cbv zeta.
  repeat split; reflexivity.
Qed.

Lemma inserted_novel_valid o (N : Novel.t) : novel_valid (<["_id" := VOid o]> (model_dump N)).
Proof.
  unfold novel_valid, model_dump, Novel.dump.
  split; [eexists; by simplify_map_eq|].
  split; [eexists; by simplify_map_eq|].
  split; [eexists; by simplify_map_eq|].
  split; [eexists; by simplify_map_eq|].
  split; [|eexists; by simplify_map_eq].
  destruct (Novel.cover_url N); [right; eexists|left]; by simplify_map_eq.
Qed.

Lemma inserted_chapter_valid o (C : Chapter.t) :
  1 <= Chapter.index C -> chapter_valid (<["_id" := VOid o]> (model_dump C)).
Proof.
  intros Hi. unfold chapter_valid, model_dump, Chapter.dump.
  split; [eexists; by simplify_map_eq|].
  split; [eexists; by simplify_map_eq|].
  split; [eexists; split; [by simplify_map_eq|done]|].
  split; eexists; by simplify_map_eq.
Qed.

Lemma inserted_chapter_fields o (C : Chapter.t) :
  (<["_id" := VOid o]> (model_dump C) : doc) !! "novel_id" = Some (VStr (Chapter.novel_id C)) /\
  (<["_id" := VOid o]> (model_dump C) : doc) !! "index" = Some (VInt (Chapter.index C)).
Proof. unfold model_dump, Chapter.dump. split; by simplify_map_eq. Qed.

(** X16: with [create_document] as the specification describes it, on a
    database without novels [POST /api/seed] stores two novels under two
    different ids and, after the chapters there were, three chapters whose
    novel_id is the text of those ids: chapters 1 and 2 of the first novel
    and chapter 1 of the second. *)
Theorem seed_demo_data_links (str_other : value -> string) (st : db) :
  collection st "novel" = [] ->
  exists n1 n2 c1 c2 c3 o1 o2,
    collection (snd (seed_demo_data str_other st)) "novel" = [n1; n2] /\
    collection (snd (seed_demo_data str_other st)) "chapter"
    = collection st "chapter" ++ [c1; c2; c3] /\
    n1 !! "_id" = Some (VOid o1) /\ n2 !! "_id" = Some (VOid o2) /\ o1 <> o2 /\
    c1 !! "novel_id" = Some (VStr (str_ObjectId o1)) /\ c1 !! "index" = Some (VInt 1) /\
    c2 !! "novel_id" = Some (VStr (str_ObjectId o1)) /\ c2 !! "index" = Some (VInt 2) /\
    c3 !! "novel_id" = Some (VStr (str_ObjectId o2)) /\ c3 !! "index" = Some (VInt 1).
Proof.
  intros Hempty.
  destruct (seed_demo_data_run_empty str_other st Hempty)
    as (N1 & N2 & C1 & C2 & C3 & H). cbv zeta in H.
  destruct H as (H1 & H2 & H3 & I1 & I2 & I3 & Hrun).
  rewrite Hrun. cbn [snd]. rewrite !collection_logged.
  rewrite collection_logged, Hempty in H1, H2.
  set (st0 := logged (CountDocuments "novel") st) in *.
  assert (Hn0 : collection st0 "novel" = []) by (by rewrite <- Hempty).
  set (st1 := inserted "novel" (model_dump N1) st0) in *.
  assert (Hn1 : collection st1 "novel" = [<["_id" := VOid (ObjectId_new [])]> (model_dump N1)]).
  { unfold st1. by rewrite collection_inserted, decide_True, Hn0. }
  rewrite Hn1 in H3.
  set (n1 := <["_id" := VOid (ObjectId_new [])]> (model_dump N1)) in *.
  set (st2 := inserted "novel" (model_dump N2) st1).
  assert (Hn2 : collection st2 "novel" = [n1; <["_id" := VOid (ObjectId_new [n1])]> (model_dump N2)]).
  { unfold st2. by rewrite collection_inserted, decide_True, Hn1. }
  assert (Hc2 : collection st2 "chapter" = collection st "chapter").
  { unfold st2, st1, st0. by rewrite !collection_inserted, !decide_False by done. }
  exists n1, (<["_id" := VOid (ObjectId_new [n1])]> (model_dump N2)).
  eexists _, _, _, (ObjectId_new []), (ObjectId_new [n1]).
  split.
  { rewrite !collection_inserted, !decide_False by done. exact Hn2. }
  split.
  { rewrite collection_inserted, decide_True by done.
    rewrite collection_inserted, decide_True by done.
    rewrite collection_inserted, decide_True by done.
    rewrite Hc2, <- !app_assoc. reflexivity. }
  split; [by unfold n1; rewrite lookup_insert_eq|].
  split; [by rewrite lookup_insert_eq|].
  split.
  { unfold ObjectId_new. simpl. unfold n1. rewrite lookup_insert_eq.
    unfold ObjectId_new. simpl. lia. }
  repeat split;
    first [ rewrite (proj1 (inserted_chapter_fields _ _)); congruence
          | rewrite (proj2 (inserted_chapter_fields _ _)); congruence ].
Qed.

(** ** The records the API stores *)

Lemma preserves_novel_other str_other r :
  (forall novel, r <> CreateNovel novel) -> r <> SeedDemoData ->
  preserves "novel" (handle str_other r).
Proof.
  intros Hc Hs. destruct r; simpl;
    [unfold list_novels|by destruct (Hc novel)|unfold get_novel|unfold list_chapters
    |unfold create_chapter|unfold get_chapter|unfold get_progress
    |unfold upsert_progress|done];
    auto 30 using preserves_update_one_upsert with preserves.
Qed.

Lemma seed_demo_data_valid str_other st :
  Forall novel_valid (collection st "novel") ->
  Forall chapter_valid (collection st "chapter") ->
  Forall novel_valid (collection (snd (seed_demo_data str_other st)) "novel") /\
  Forall chapter_valid (collection (snd (seed_demo_data str_other st)) "chapter").
Proof.
  intros Hn Hc. destruct (collection st "novel") as [|x l] eqn:Hnovel.
  - destruct (seed_demo_data_run_empty str_other st Hnovel)
      as (N1 & N2 & C1 & C2 & C3 & H). cbv zeta in H.
    destruct H as (_ & _ & _ & I1 & I2 & I3 & Hrun).
    rewrite Hrun. cbn [snd]. split.
    + rewrite collection_logged, !collection_inserted, collection_logged, Hnovel.
      repeat case_decide; try done. cbn [app].
      constructor; [apply inserted_novel_valid|].
      constructor; [apply inserted_novel_valid|constructor].
    + rewrite collection_logged, !collection_inserted, collection_logged.
      repeat case_decide; try done.
      repeat (apply Forall_app; split); try done;
        (constructor; [apply inserted_chapter_valid; lia|constructor]).
  - rewrite seed_demo_data_exists by (by rewrite Hnovel). cbn [snd].
    rewrite !collection_logged. by rewrite Hnovel.
Qed.

Lemma handle_novel_valid str_other r st :
  Forall novel_valid (collection st "novel") ->
  Forall chapter_valid (collection st "chapter") ->
  Forall novel_valid (collection (snd (handle str_other r st)) "novel").
Proof.
  intros Hn Hc.
  destruct r; try (rewrite preserves_novel_other by done; exact Hn); cbn [handle].
  - destruct novel as [t a de cu [g|]]; [|exact Hn].
    rewrite create_novel_run. cbn [snd].
    rewrite collection_inserted, decide_True by done.
    apply Forall_app. split; [exact Hn|].
    constructor; [apply inserted_novel_valid|constructor].
  - by apply seed_demo_data_valid.
Qed.

Lemma handle_chapter_valid str_other r st :
  Forall novel_valid (collection st "novel") ->
  Forall chapter_valid (collection st "chapter") ->
  Forall chapter_valid (collection (snd (handle str_other r st)) "chapter").
Proof.
  intros Hn Hc.
  destruct r; try (rewrite preserves_chapter_other by done; exact Hc); cbn [handle].
  - destruct (Z_lt_le_dec (ChapterCreate.index chapter) 1) as [Hlow|Hok].
    + unfold create_chapter, Chapter.new. apply Z.leb_gt in Hlow. by rewrite Hlow.
    + destruct (Z_lt_le_dec (ChapterCreate.index chapter) (2 ^ 63)) as [Hfit|Hbig];
        [|by rewrite create_chapter_overflow].
      rewrite create_chapter_inserts by done. cbn [snd].
      rewrite collection_inserted, decide_True by done.
      apply Forall_app. split; [exact Hc|].
      constructor; [by apply inserted_chapter_valid|constructor].
  - by apply seed_demo_data_valid.
Qed.

Lemma upserted_progress_valid p q c c' d0 :
  Forall progress_valid c -> upserted q (progress_fields p) c c' d0 ->
  Forall progress_valid c'.
Proof.
  intros Hc Hup.
  pose proof (upserted_holds_payload _ _ _ _ _ Hup) as (Hu & Hn & Hch & Hpos).
  assert (Hfields : (exists o, d0 !! "_id" = Some (VOid o)) -> progress_valid d0).
  { intros Hid. split; [exact Hid|]. repeat split; by eexists. }
  destruct Hup as [l1 d l2 -> -> _ _ Hd0| _ -> Hd0].
  - apply Forall_app in Hc as [Hl1 [Hd Hl2]%Forall_cons].
    apply Forall_app. split; [done|]. constructor; [|done].
    apply Hfields. destruct Hd as [[o Ho] _]. exists o.
    rewrite Hd0, apply_set_progress_fields_other; [done|].
    unfold progress_keys. rewrite !not_elem_of_cons. repeat split; try done.
    apply not_elem_of_nil.
  - apply Forall_app. split; [done|]. constructor; [|constructor].
    apply Hfields. eexists. rewrite Hd0. by rewrite lookup_insert_eq.
Qed.

Lemma handle_progress_valid str_other r st :
  Forall progress_valid (collection st "progress") ->
  Forall progress_valid (collection (snd (handle str_other r st)) "progress").
Proof.
  intros Hp.
  destruct r; try (rewrite preserves_progress_other by done; exact Hp); cbn [handle].
  destruct (upsert_progress_run str_other p st) as (c' & d0 & -> & Hup).
  cbn [snd]. rewrite collection_write, decide_True by done.
  by eapply upserted_progress_valid.
Qed.

(** X17: with [create_document] as the specification describes it, after
    any sequence of requests on an empty database every stored record has
    an [ObjectId] as [_id] and the fields of its schema with their types: a
    novel has a list as genres (never [null]), a chapter an integer index
    of at least 1, a progress record a float position. *)
Theorem stored_records_valid (str_other : value -> string) (rs : list request) :
  let st := run_requests str_other rs empty_db in
  Forall novel_valid (collection st "novel") /\
  Forall chapter_valid (collection st "chapter") /\
  Forall progress_valid (collection st "progress").
Proof.
  cbv zeta. induction rs as [|r rs IH] using rev_ind.
  - unfold run_requests, collection. simpl. rewrite !lookup_empty. simpl.
    repeat split; constructor.
  - rewrite run_requests_snoc. destruct IH as (Hn & Hc & Hp).
    split; [by apply handle_novel_valid|].
    split; [by apply handle_chapter_valid|by apply handle_progress_valid].
Qed.

(* ===================================================================== *)
(** * The Progress schema, and repeating an upsert *)
(* ===================================================================== *)

Lemma SFcompare_finite_refl s m e :
  SFcompare (S754_finite s m e) (S754_finite s m e) = Some Eq.
Proof.
  simpl. rewrite Z.compare_refl.
  change (PosDef.Pos.compare_cont Eq m m) with (Pos.compare m m).
  rewrite Pos.compare_refl. by destruct s.
Qed.

Lemma leb_0_1_finite pos :
  PrimFloat.leb 0 pos = true -> PrimFloat.leb pos 1 = true -> PrimFloat.is_finite pos = true.
Proof.
  rewrite !FloatAxioms.leb_spec.
  unfold PrimFloat.is_finite, PrimFloat.is_nan, PrimFloat.is_infinity.
  rewrite !FloatAxioms.eqb_spec, FloatAxioms.abs_spec.
  change (Prim2SF 0) with (S754_zero false).
  change (Prim2SF 1) with (S754_finite false 4503599627370496 (-52)).
  change (Prim2SF infinity) with (S754_infinity false).
  destruct (Prim2SF pos) as [s|s| |s m e]; unfold SFleb, SFeqb.
  - done.
  - by destruct s.
  - done.
  - intros _ _. cbn [SFabs]. rewrite SFcompare_finite_refl. done.
Qed.

(** X18: the Progress schema admits a position only if it is a finite
    number between 0 and 1 (NaN and the infinities are refused), so a
    validated position can always be encoded as JSON; the instance keeps
    the four values it was given. *)
Theorem Progress_new_finite (u n c : string) (pos : float) (m : Progress.t) :
  Progress.new u n c pos = Ok m ->
  PrimFloat.leb 0 pos = true /\ PrimFloat.leb pos 1 = true /\
  PrimFloat.is_finite pos = true /\
  json_value_ok (VFloat pos) = true /\
  m = {| Progress.user_id := u; Progress.novel_id := n; Progress.chapter_id := c;
         Progress.position := pos |}.
Proof.
  unfold Progress.new.
  destruct (PrimFloat.leb pos 1) eqn:E1; [|done].
  destruct (PrimFloat.leb 0 pos) eqn:E0; [|done].
  simpl. intros [= <-].
  pose proof (leb_0_1_finite pos E0 E1) as Hfin. by rewrite Hfin.
Qed.

Lemma apply_set_holds_payload p d : holds_payload p d -> apply_set (progress_fields p) d = d.
Proof.
  intros (Hu & Hn & Hc & Hp). unfold apply_set, progress_fields. simpl.
  rewrite (insert_id d "user_id") by done.
  rewrite (insert_id d "novel_id") by done.
  rewrite (insert_id d "chapter_id") by done.
  by rewrite (insert_id d "position").
Qed.

(** X19: [POST /api/progress] is idempotent: sent a second time, a payload
    gets the same answer and leaves every collection as the first call left
    it, on any database. *)
Theorem upsert_progress_idempotent (str_other : value -> string) (p : ProgressUpsert.t)
    (st : db) :
  let st1 := snd (upsert_progress str_other p st) in
  fst (upsert_progress str_other p st1) = fst (upsert_progress str_other p st) /\
  collections (snd (upsert_progress str_other p st1)) = collections st1.
Proof.
  cbv zeta.
  destruct (upsert_progress_run str_other p st) as (c1 & d1 & Hrun1 & Hup1).
  pose proof (upserted_head_selected p _ _ _ Hup1) as Hhead1.
  pose proof (upserted_holds_payload _ _ _ _ _ Hup1) as Hp1.
  rewrite Hrun1. cbn [fst snd].
  set (st1 := {| collections := <["progress" := c1]> (collections st);
                 calls := (calls st ++ [UpdateOne "progress"]) ++ [FindOne "progress"] |}).
  assert (Hc1 : collection st1 "progress" = c1).
  { unfold st1. by rewrite collection_write, decide_True. }
  destruct (upsert_progress_run str_other p st1) as (c2 & d2 & Hrun2 & Hup2).
  rewrite Hc1 in Hup2.
  assert (Hsame : c2 = c1 /\ d2 = d1).
  { destruct Hup2 as [l1 d l2 Hc -> Hl1 Hd Hd2| Hnone _ _].
    - rewrite Hc, selected_app, Hl1, selected_cons, Hd in Hhead1.
      simpl in Hhead1. inversion Hhead1; subst d.
      rewrite apply_set_holds_payload in Hd2 by done. subst d2. by rewrite Hc.
    - by rewrite Hnone in Hhead1. }
  destruct Hsame as [-> ->]. rewrite Hrun2. cbn [fst snd]. split; [done|].
  unfold st1. simpl. by rewrite insert_insert_eq.
Qed.

(* ===================================================================== *)
(** * The further properties at concrete inputs *)
(* ===================================================================== *)

Lemma serialize_dict_clears_ObjectIds_witness :
  example_chapter 10%N "n1" 3 !! "index" = Some (VInt 3) /\
  serialize_dict str_unspecified (example_chapter 10%N "n1" 3) !! "_id" = None /\
  serialize_dict str_unspecified (example_chapter 10%N "n1" 3) !! "index" = Some (VInt 3).
Proof.
  assert (Hk : example_chapter 10%N "n1" 3 !! "index" = Some (VInt 3)) by reflexivity.
  pose proof (serialize_dict_clears_ObjectIds str_unspecified (example_chapter 10%N "n1" 3))
    as (Hno & _ & Hkeep & _).
  split; [exact Hk|]. split; [exact Hno|].
  apply (Hkeep "index" (VInt 3)); [discriminate|discriminate|exact Hk|discriminate].
Defined.

Lemma serialize_dict_renames__id_witness :
  example_chapter 10%N "n1" 3 !! "_id" = Some (VOid 10%N) /\
  serialize_dict str_unspecified (example_chapter 10%N "n1" 3) !! "id"
  = Some (VStr (py_str str_unspecified (VOid 10%N))) /\
  dom (serialize_dict str_unspecified (example_chapter 10%N "n1" 3))
  = {["id"]} ∪ (dom (example_chapter 10%N "n1" 3) ∖ {["_id"]}).
Proof.
  assert (Hid : example_chapter 10%N "n1" 3 !! "_id" = Some (VOid 10%N)) by reflexivity.
  split; [exact Hid|].
  exact (serialize_dict_renames__id str_unspecified _ _ Hid).
Defined.

Lemma oid_canonical_text_witness :
  oid example_spaced_id = Ok 713053462628461023871112039919%N /\
  has_space example_spaced_id = true /\
  (2 ^ 96 <= 713053462628461023871112039919)%N /\
  (String.length (str_ObjectId 713053462628461023871112039919%N) < 24)%nat /\
  oid (str_ObjectId 713053462628461023871112039919%N)
  = Raise (HTTPException 400 "Invalid ID format").
Proof.
  assert (Hoid : oid example_spaced_id = Ok 713053462628461023871112039919%N)
    by reflexivity.
  assert (Hsp : has_space example_spaced_id = true) by reflexivity.
  split; [exact Hoid|]. split; [exact Hsp|].
  exact (proj2 (proj2 (proj2 (oid_canonical_text _ _ Hoid))) Hsp).
Defined.

Lemma read_requests_write_nothing_witness :
  is_read (GetProgress "u1" "n1") = true /\
  collections (snd (handle str_unspecified (GetProgress "u1" "n1") empty_db))
  = collections empty_db.
Proof.
  assert (Hr : is_read (GetProgress "u1" "n1") = true) by reflexivity.
  split; [exact Hr|].
  exact (proj1 (read_requests_write_nothing str_unspecified _ empty_db Hr)).
Defined.

Lemma get_novel_get_chapter_found_witness :
  ObjectId_of_str "000000000000000000000002" = Some 2%N /\
  head (selected [("_id", VOid 2%N)] (collection example_chapters_db "chapter"))
  = Some (example_chapter 2%N "n1" 1) /\
  get_chapter str_unspecified "000000000000000000000002" example_chapters_db
  = (Ok (RDoc (serialize_dict str_unspecified (example_chapter 2%N "n1" 1))),
     logged (FindOne "chapter") example_chapters_db).
Proof.
  assert (Ho : ObjectId_of_str "000000000000000000000002" = Some 2%N) by reflexivity.
  assert (Hd : head (selected [("_id", VOid 2%N)] (collection example_chapters_db "chapter"))
               = Some (example_chapter 2%N "n1" 1)) by (vm_compute; reflexivity).
  split; [exact Ho|]. split; [exact Hd|].
  exact (proj2 (proj2 (get_novel_get_chapter_found str_unspecified example_chapters_db
                         _ _ _ "chapter" Ho Hd)) eq_refl).
Defined.

Lemma list_novels_sorted_witness :
  Forall novel_titled (collection example_novels_db "novel") /\
  exists docs,
    list_novels str_unspecified example_novels_db
    = (Ok (RDocs (serialize_dict str_unspecified <$> docs)),
       logged (Find "novel") example_novels_db) /\
    Permutation docs (collection example_novels_db "novel") /\
    StronglySorted title_le (serialize_dict str_unspecified <$> docs).
Proof.
  split; [exact example_novels_titled|].
  exact (list_novels_sorted str_unspecified example_novels_db example_novels_titled).
Defined.

Lemma upsert_progress_other_pair_witness :
  reachable str_unspecified empty_db /\
  ("u2", "n1") <> (ProgressUpsert.user_id example_progress_payload,
                   ProgressUpsert.novel_id example_progress_payload) /\
  fst (get_progress str_unspecified "u2" "n1"
         (snd (upsert_progress str_unspecified example_progress_payload empty_db)))
  = fst (get_progress str_unspecified "u2" "n1" empty_db).
Proof.
  assert (Hreach : reachable str_unspecified empty_db) by constructor.
  assert (Hne : ("u2", "n1") <> (ProgressUpsert.user_id example_progress_payload,
                                 ProgressUpsert.novel_id example_progress_payload))
    by discriminate.
  split; [exact Hreach|]. split; [exact Hne|].
  exact (proj2 (upsert_progress_other_pair str_unspecified example_progress_payload
                  empty_db "u2" "n1" Hreach Hne)).
Defined.

Lemma example_novels_nonempty : collection example_novels_db "novel" <> [].
Proof.
  change (collection example_novels_db "novel")
    with [example_novel 1%N "Quantum"; example_novel 2%N "Atlas"; example_novel 3%N "Neon"].
  discriminate.
Qed.

Lemma seed_demo_data_skips_witness :
  collection example_novels_db "novel" <> [] /\
  exists novels,
    fst (seed_demo_data str_unspecified example_novels_db) = Ok (RSeed "exists" novels) /\
    collections (snd (seed_demo_data str_unspecified example_novels_db))
    = collections example_novels_db.
Proof.
  split; [exact example_novels_nonempty|].
  destruct (seed_demo_data_skips str_unspecified example_novels_db example_novels_nonempty)
    as (novels & Hfst & _ & _ & Hcoll & _).
  exists novels. split; [exact Hfst|exact Hcoll].
Defined.

Lemma create_novel_read_back_witness :
  NovelCreate.genres example_novel_payload = Some ["Sci-Fi"] /\
  (ObjectId_new (collection empty_db "novel") < 16 ^ 24)%N /\
  exists id d,
    fst (create_novel example_novel_payload empty_db) = Ok (RDoc {[ "id" := VStr id ]}) /\
    fst (get_novel str_unspecified id (snd (create_novel example_novel_payload empty_db)))
    = Ok (RDoc d) /\
    d !! "genres" = Some (VList ["Sci-Fi"]).
Proof.
  assert (Hg : NovelCreate.genres example_novel_payload = Some ["Sci-Fi"]) by reflexivity.
  assert (Hlt : (ObjectId_new (collection empty_db "novel") < 16 ^ 24)%N) by reflexivity.
  split; [exact Hg|]. split; [exact Hlt|].
  destruct (create_novel_read_back str_unspecified empty_db example_novel_payload _ Hg Hlt)
    as (id & stored & d & Hcreate & _ & Hget & _ & _ & _ & _ & _ & _ & Hgenres).
  exists id, d. split; [exact Hcreate|]. split; [exact Hget|exact Hgenres].
Defined.

Lemma create_chapter_unchecked_novel_witness :
  1 <= ChapterCreate.index example_chapter_payload < 2 ^ 63 /\
  collection empty_db "novel" = [] /\
  exists stored,
    collection (snd (create_chapter "no-such-novel" example_chapter_payload empty_db)) "chapter"
    = collection empty_db "chapter" ++ [stored] /\
    stored !! "novel_id" = Some (VStr "no-such-novel").
Proof.
  assert (Hi : 1 <= ChapterCreate.index example_chapter_payload < 2 ^ 63)
    by (simpl; lia).
  split; [exact Hi|]. split; [reflexivity|].
  destruct (proj1 (proj2 (create_chapter_unchecked_novel str_unspecified empty_db
                            "no-such-novel" example_chapter_payload)) Hi)
    as (id & stored & docs & _ & _ & Hcoll & Hnid & _).
  exists stored. split; [exact Hcoll|exact Hnid].
Defined.

Lemma seed_demo_data_links_witness :
  collection empty_db "novel" = [] /\
  exists n1 n2 c1 c2 c3 o1 o2,
    collection (snd (seed_demo_data str_unspecified empty_db)) "novel" = [n1; n2] /\
    collection (snd (seed_demo_data str_unspecified empty_db)) "chapter"
    = collection empty_db "chapter" ++ [c1; c2; c3] /\
    n1 !! "_id" = Some (VOid o1) /\ n2 !! "_id" = Some (VOid o2) /\ o1 <> o2 /\
    c1 !! "novel_id" = Some (VStr (str_ObjectId o1)) /\ c1 !! "index" = Some (VInt 1) /\
    c2 !! "novel_id" = Some (VStr (str_ObjectId o1)) /\ c2 !! "index" = Some (VInt 2) /\
    c3 !! "novel_id" = Some (VStr (str_ObjectId o2)) /\ c3 !! "index" = Some (VInt 1).
Proof.
  assert (Hempty : collection empty_db "novel" = []) by reflexivity.
  split; [exact Hempty|].
  exact (seed_demo_data_links str_unspecified empty_db Hempty).
Defined.

Lemma Progress_new_finite_witness :
  Progress.new "u1" "n1" "c1" 0.5%float
  = Ok {| Progress.user_id := "u1"; Progress.novel_id := "n1"; Progress.chapter_id := "c1";
          Progress.position := 0.5%float |} /\
  PrimFloat.is_finite 0.5%float = true.
Proof.
  assert (Hnew : Progress.new "u1" "n1" "c1" 0.5%float
                 = Ok {| Progress.user_id := "u1"; Progress.novel_id := "n1";
                         Progress.chapter_id := "c1"; Progress.position := 0.5%float |})
    by reflexivity.
  split; [exact Hnew|].
  exact (proj1 (proj2 (proj2 (Progress_new_finite _ _ _ _ _ Hnew)))).
Defined.

(** NaN and the infinities do not pass the Progress schema; NaN, which
    fails both bounds, is reported against the upper one, tested first. *)
Example Progress_new_nan :
  Progress.new "u1" "n1" "c1" nan = Raise (ValidationError "position" "less_than_equal") /\
  Progress.new "u1" "n1" "c1" infinity = Raise (ValidationError "position" "less_than_equal") /\
  Progress.new "u1" "n1" "c1" neg_infinity
  = Raise (ValidationError "position" "greater_than_equal").
Proof. repeat split; reflexivity. Qed.
